(** * Zed reference generator: flattening, type inference, categorisation

    A shallow embedding of [scripts/generator/generate_zed_reference.py]:
    [infer_type], [flatten_settings] and the text preprocessing done by
    [fetch_default_json] before the JSON parser is called.

    Python [str] values are embedded as Rocq strings holding the UTF-8
    encoding of the text.  The string operations of the script
    (concatenation, substring containment and search, slicing at a
    position found by search, replacement of an ASCII character,
    splitting at a line feed, emptiness) commute with that encoding, and
    the white space of the regular expression is matched by its
    encodings, so the functions below compute on bytes what the script
    computes on code points. *)

From Stdlib Require Import List String Ascii Bool ZArith Lia Arith.
From Stdlib Require Import SpecFloat.
From Stdlib Require Import DecimalString Sorted Permutation.
Import ListNotations.

Set Warnings "-register-all".

Local Open Scope list_scope.
Local Open Scope string_scope.

(** ** Python strings *)

(** The double quote, and a text between double quotes. *)
Definition quote : ascii := "034"%char.

Definition quoted (s : string) : string :=
  String quote (s ++ String quote EmptyString).

Module PyStr.

(** [needle in hay] *)
Fixpoint contains (needle hay : string) : bool :=
  String.prefix needle hay
  || match hay with
     | EmptyString => false
     | String _ rest => contains needle rest
     end.

(** [hay.find(needle)]: index of the first occurrence, [-1] when absent *)
Fixpoint find_from (needle hay : string) (pos : Z) : Z :=
  if String.prefix needle hay then pos
  else match hay with
       | EmptyString => (-1)%Z
       | String _ rest => find_from needle rest (pos + 1)
       end.

Definition find (needle hay : string) : Z := find_from needle hay 0.

(** [s[:stop]] for a slice bound that may be negative *)
Definition slice_to (s : string) (stop : Z) : string :=
  let n := Z.of_nat (String.length s) in
  let stop' := if (stop <? 0)%Z then Z.max 0 (n + stop) else Z.min stop n in
  String.substring 0 (Z.to_nat stop') s.

(** [s.replace(old, new)] for a non-empty [old]: occurrences are replaced
    from left to right and do not overlap.  [skip] counts the characters
    of the occurrence being replaced that are still to be dropped. *)
Fixpoint replace_go (old new : string) (skip : nat) (s : string) : string :=
  match s with
  | EmptyString => EmptyString
  | String c rest =>
      match skip with
      | S k => replace_go old new k rest
      | O =>
          if String.prefix old s
          then new ++ replace_go old new (String.length old - 1) rest
          else String c (replace_go old new 0 rest)
      end
  end.

(** With an empty [old], Python puts [new] before every character and at
    the end. *)
Fixpoint interleave (new s : string) : string :=
  match s with
  | EmptyString => new
  | String c rest => new ++ String c (interleave new rest)
  end.

Definition replace (old new s : string) : string :=
  match old with
  | EmptyString => interleave new s
  | String _ _ => replace_go old new 0 s
  end.

(** [s.split(sep)] for a one-character separator *)
Fixpoint split (sep : ascii) (s : string) : list string :=
  match s with
  | EmptyString => [EmptyString]
  | String c rest =>
      if Ascii.eqb c sep then EmptyString :: split sep rest
      else match split sep rest with
           | [] => [String c EmptyString]
           | piece :: pieces => String c piece :: pieces
           end
  end.

(** [sep.join(pieces)] *)
Fixpoint join (sep : string) (pieces : list string) : string :=
  match pieces with
  | [] => EmptyString
  | [piece] => piece
  | piece :: more => piece ++ sep ++ join sep more
  end.

End PyStr.

(** ** Python values *)

(** The values [json.loads] produces, and [VOther] for an object of any
    other class: it is an instance of none of [bool], [int], [float],
    [str], [list], [dict], has no [items] attribute, and [truthy] is the
    result of [bool(value)] when that test returns (the test of such an
    object is a call into its class, which may raise: see [truth_test]). *)
Inductive value : Type :=
| VNone
| VBool (b : bool)
| VInt (n : Z)
| VFloat (x : spec_float)
| VStr (s : string)
| VList (xs : list value)
| VDict (items : list (string * value))
| VOther (type_name : string) (truthy : bool).

Inductive pyclass : Type := Cbool | Cint | Cfloat | Cstr | Clist | Cdict.

(** [isinstance(value, cls)]; [bool] is a subclass of [int]. *)
Definition isinstance (v : value) (cls : pyclass) : bool :=
  match v, cls with
  | VBool _, Cbool => true
  | VBool _, Cint => true
  | VInt _, Cint => true
  | VFloat _, Cfloat => true
  | VStr _, Cstr => true
  | VList _, Clist => true
  | VDict _, Cdict => true
  | _, _ => false
  end.

(** [type(value).__name__] *)
Definition class_name (v : value) : string :=
  match v with
  | VNone => "NoneType"
  | VBool _ => "bool"
  | VInt _ => "int"
  | VFloat _ => "float"
  | VStr _ => "str"
  | VList _ => "list"
  | VDict _ => "dict"
  | VOther type_name _ => type_name
  end.

(** The result of [bool(value)], when it returns. *)
Definition truth (v : value) : bool :=
  match v with
  | VNone => false
  | VBool b => b
  | VInt n => negb (n =? 0)%Z
  | VFloat (S754_zero _) => false
  | VFloat _ => true
  | VStr s => negb (String.eqb s "")
  | VList xs => match xs with [] => false | _ :: _ => true end
  | VDict items => match items with [] => false | _ :: _ => true end
  | VOther _ truthy => truthy
  end.

Definition is_none (v : value) : bool :=
  match v with VNone => true | _ => false end.

(** ** [infer_type] *)

Definition infer_type (value : value) : string :=
  if isinstance value Cbool then "boolean"
  else if isinstance value Cint || isinstance value Cfloat then "number"
  else if isinstance value Cstr then "string"
  else if isinstance value Clist then "array"
  else if isinstance value Cdict then "object"
  else "string".

(** ** Insertion-ordered dictionaries

    A Python [dict] keeps its keys in insertion order; assigning to a key
    that is present replaces the value and leaves the key where it is. *)

Abbreviation dict V := (list (string * V)).

Module PyDict.
Section WithValues.
Context {V : Type}.

Abbreviation t := (dict V).

(** [d.get(key)] *)
Fixpoint get (d : t) (key : string) : option V :=
  match d with
  | [] => None
  | (k, v) :: rest => if String.eqb k key then Some v else get rest key
  end.

(** [d[key] = v] *)
Fixpoint set (d : t) (key : string) (v : V) : t :=
  match d with
  | [] => [(key, v)]
  | (k, v0) :: rest =>
      if String.eqb k key then (k, v) :: rest
      else (k, v0) :: set rest key v
  end.

(** [d.update(other)] *)
Definition update (d other : t) : t :=
  fold_left (fun acc kv => set acc (fst kv) (snd kv)) other d.

(** [d[key]] changed in place by [f]; nothing happens when the key is
    absent (the script only does this right after storing the key). *)
Fixpoint modify (d : t) (key : string) (f : V -> V) : t :=
  match d with
  | [] => []
  | (k, v) :: rest =>
      if String.eqb k key then (k, f v) :: rest
      else (k, v) :: modify rest key f
  end.

Definition keys (d : t) : list string := map fst d.

End WithValues.
End PyDict.

(** [value.keys()] of a [dict] value *)
Definition keys_of (v : value) : list string :=
  match v with
  | VDict items => PyDict.keys items
  | _ => []
  end.

(** ** Flattened entries *)

(** The dictionary stored for one setting: four keys that are always
    there and [default_value], which is added afterwards or not at all. *)
Record entry : Type := mkEntry {
  name : string;
  type : string;
  description : string;
  category : string;
  default_value : option value
}.

Definition with_default_value (v : value) (e : entry) : entry :=
  mkEntry (name e) (type e) (description e) (category e) (Some v).

(** [k in ['mode', 'light', 'dark', 'provider', 'model']] *)
Definition sentinel_keys : list string :=
  ["mode"; "light"; "dark"; "provider"; "model"].

Definition mem (k : string) (l : list string) : bool :=
  existsb (String.eqb k) l.

(** The test of the [if] at the head of the loop body. *)
Definition is_structural (value : value) : bool :=
  isinstance value Cdict
  && negb (existsb (fun k => mem k sentinel_keys) (keys_of value)).

(** [f"{prefix}.{key}" if prefix else key] *)
Definition full_key_of (prefix key : string) : string :=
  if negb (String.eqb prefix "") then prefix ++ "." ++ key else key.

(** [f"Configuration for {full_key.replace('_', ' ').replace('.', ' ')}"] *)
Definition describe (full_key : string) : string :=
  "Configuration for "
  ++ PyStr.replace "." " " (PyStr.replace "_" " " full_key).

(** The [if]/[elif] chain that determines the category. *)
Definition categorize (full_key : string) : string :=
  let has needle := PyStr.contains needle full_key in
  if has "font" || has "text" then "font"
  else if has "theme" || has "color" || has "appearance" then "appearance"
  else if has "panel" || has "dock" || has "tab" then "ui"
  else if has "git" then "git"
  else if has "agent" || has "ai" then "ai"
  else if has "language" || has "lsp" then "language"
  else if has "key" || has "vim" || has "helix" then "keybindings"
  else if has "scroll" || has "cursor" then "editor"
  else if has "diagnostic" then "diagnostics"
  else if has "format" || has "indent" then "formatting"
  else "general".

(** The test deciding whether [default_value] is added. *)
Definition keeps_default (setting_type : string) (value : value) : bool :=
  if negb (is_none value) then
    if String.eqb setting_type "string" && truth value then true
    else if mem setting_type ["number"; "boolean"] then true
    else if String.eqb setting_type "array" && truth value then true
    else false
  else false.

(** The [else] branch of the loop body: store the entry, then add the
    default value to the stored entry. *)
Definition add_setting (settings : dict entry) (full_key : string)
    (value : value) : dict entry :=
  let setting_type := infer_type value in
  let description := describe full_key in
  let category := categorize full_key in
  let settings :=
    PyDict.set settings full_key
      (mkEntry full_key setting_type description category None) in
  if keeps_default setting_type value
  then PyDict.modify settings full_key (with_default_value value)
  else settings.

(** ** [flatten_settings] *)

(** The exceptions that can end a call: the [AttributeError] of
    [obj.items()], the [RecursionError] of the interpreter, and an exception
    raised by code outside the script (the class of an object, [open],
    [yaml.dump], [print]), named by where it comes from. *)
Inductive exn : Type :=
| AttributeError (message : string)
| RecursionError
| Foreign (origin : string).

Inductive outcome (A : Type) : Type :=
| Returns (a : A)
| Raises (e : exn).
Arguments Returns {A} a.
Arguments Raises {A} e.

(** ['T' object has no attribute 'items'] *)
Definition no_items (obj : value) : exn :=
  AttributeError ("'" ++ class_name obj ++ "' object has no attribute 'items'").

Section Loop.
(** The recursive call. *)
Variable flatten : value -> string -> outcome (dict entry).

(** [for key, value in obj.items(): ...] over the items still to visit,
    with the dictionary [settings] built so far. *)
Fixpoint flatten_loop (prefix : string) (items : list (string * value))
    (settings : dict entry) {struct items} : outcome (dict entry) :=
  match items with
  | [] => Returns settings
  | (key, value) :: rest =>
      let full_key := full_key_of prefix key in
      if is_structural value then
        match flatten value full_key with
        | Returns nested =>
            flatten_loop prefix rest (PyDict.update settings nested)
        | Raises e => Raises e
        end
      else flatten_loop prefix rest (add_setting settings full_key value)
  end.
End Loop.

Fixpoint flatten_settings (obj : value) (prefix : string) {struct obj}
  : outcome (dict entry) :=
  match obj with
  | VDict items => flatten_loop flatten_settings prefix items []
  | _ => Raises (no_items obj)
  end.

(** ** The reference walker

    The leaves of a settings tree under the branching rule, each with its
    dotted path, in the order the traversal meets them.  This is the
    independent recursive walker the flattened mapping is compared with. *)

Section Walk.
Variable walk : string -> value -> list (string * value).

Fixpoint walk_items (prefix : string) (items : list (string * value))
    {struct items} : list (string * value) :=
  match items with
  | [] => []
  | (key, value) :: rest =>
      let full_key := full_key_of prefix key in
      (if is_structural value then walk full_key value
       else [(full_key, value)])
      ++ walk_items prefix rest
  end.
End Walk.

Fixpoint leaves (prefix : string) (obj : value) {struct obj}
  : list (string * value) :=
  match obj with
  | VDict items => walk_items leaves prefix items
  | _ => []
  end.

(** The entry a leaf is given: what [add_setting] leaves under [full_key]. *)
Definition entry_of (full_key : string) (value : value) : entry :=
  let setting_type := infer_type value in
  mkEntry full_key setting_type (describe full_key) (categorize full_key)
    (if keeps_default setting_type value then Some value else None).

(** Storing the leaves one after the other. *)
Definition store_all (settings : dict entry) (ls : list (string * value))
  : dict entry :=
  fold_left (fun acc kv => add_setting acc (fst kv) (snd kv)) ls settings.

(** The last value a list of leaves holds for a path. *)
Fixpoint last_at (ls : list (string * value)) (path : string) : option value :=
  match ls with
  | [] => None
  | (k, v) :: rest =>
      match last_at rest path with
      | Some v' => Some v'
      | None => if String.eqb k path then Some v else None
      end
  end.

(** ** Induction on values *)

Section ValueInd.
Variable P : value -> Prop.
Hypothesis Hnone : P VNone.
Hypothesis Hbool : forall b, P (VBool b).
Hypothesis Hint : forall n, P (VInt n).
Hypothesis Hfloat : forall x, P (VFloat x).
Hypothesis Hstr : forall s, P (VStr s).
Hypothesis Hlist : forall xs, Forall P xs -> P (VList xs).
Hypothesis Hdict :
  forall items, Forall (fun kv => P (snd kv)) items -> P (VDict items).
Hypothesis Hother : forall type_name truthy, P (VOther type_name truthy).

Fixpoint value_rect_nested (v : value) : P v :=
  match v with
  | VNone => Hnone
  | VBool b => Hbool b
  | VInt n => Hint n
  | VFloat x => Hfloat x
  | VStr s => Hstr s
  | VList xs =>
      Hlist xs
        ((fix all (l : list value) : Forall P l :=
            match l with
            | [] => Forall_nil _
            | x :: l' => Forall_cons x (value_rect_nested x) (all l')
            end) xs)
  | VDict items =>
      Hdict items
        ((fix all (l : list (string * value))
            : Forall (fun kv => P (snd kv)) l :=
            match l with
            | [] => Forall_nil _
            | kv :: l' =>
                Forall_cons kv (value_rect_nested (snd kv)) (all l')
            end) items)
  | VOther type_name truthy => Hother type_name truthy
  end.
End ValueInd.


(** ** Rule tables

    An ordered table of rules, each a list of alternatives and a label;
    the first rule one of whose alternatives passes the test gives the
    label. *)
Fixpoint first_match {K : Type} (test : K -> bool)
    (rules : list (list K * string)) (otherwise : string) : string :=
  match rules with
  | [] => otherwise
  | (alternatives, label) :: more =>
      if existsb test alternatives then label
      else first_match test more otherwise
  end.

(** Type inference, in priority order. *)
Definition type_rules : list (list pyclass * string) :=
  [([Cbool], "boolean");
   ([Cint; Cfloat], "number");
   ([Cstr], "string");
   ([Clist], "array");
   ([Cdict], "object")].

(** Category assignment, in priority order. *)
Definition category_rules : list (list string * string) :=
  [(["font"; "text"], "font");
   (["theme"; "color"; "appearance"], "appearance");
   (["panel"; "dock"; "tab"], "ui");
   (["git"], "git");
   (["agent"; "ai"], "ai");
   (["language"; "lsp"], "language");
   (["key"; "vim"; "helix"], "keybindings");
   (["scroll"; "cursor"], "editor");
   (["diagnostic"], "diagnostics");
   (["format"; "indent"], "formatting")].

(** Every underscore and every dot replaced with a space. *)
Fixpoint spaced (s : string) : string :=
  match s with
  | EmptyString => EmptyString
  | String c rest =>
      String (if Ascii.eqb c "_" || Ascii.eqb c "." then " "%char else c)
        (spaced rest)
  end.

(** One character replaced by another, everywhere. *)
Fixpoint swap_char (old new : ascii) (s : string) : string :=
  match s with
  | EmptyString => EmptyString
  | String c rest =>
      String (if Ascii.eqb c old then new else c) (swap_char old new rest)
  end.

(** The inclusion rule for [default_value] as the specification words it:
    left out for null, for an empty string and for an empty array. *)
Definition default_as_stated (v : value) : option value :=
  match v with
  | VNone => None
  | VStr "" => None
  | VList [] => None
  | _ => Some v
  end.

(** The inclusion rule the script follows: mappings never carry a default
    value, and an object of another class carries one when it is truthy. *)
Definition default_by_shape (v : value) : option value :=
  match v with
  | VNone => None
  | VBool _ | VInt _ | VFloat _ => Some v
  | VStr s => if String.eqb s "" then None else Some v
  | VList xs => match xs with [] => None | _ :: _ => Some v end
  | VDict _ => None
  | VOther _ truthy => if truthy then Some v else None
  end.

(** No key occurs twice in a list of keys. *)
Fixpoint distinct (keys : list string) : bool :=
  match keys with
  | [] => true
  | k :: more => negb (mem k more) && distinct more
  end.

(** The trees the script can be given: a Python [dict] holds a key once,
    at every level. *)
Fixpoint well_formed (v : value) : bool :=
  match v with
  | VList xs => forallb well_formed xs
  | VDict items =>
      distinct (PyDict.keys items)
      && forallb (fun kv => well_formed (snd kv)) items
  | _ => true
  end.

(** ** The store

    [settings = {}] makes a new dictionary object, and item assignment and
    [update] change that object in place.  The store holds the [settings]
    dictionaries made so far, each at its address; [flatten_settings_ref]
    is [flatten_settings] with the store it runs in made explicit.  The
    dictionary of a single entry (lines 94 to 99) is reachable from the
    [settings] dictionary that holds it and from nowhere else, and is kept
    as a value inside it, not at an address of its own. *)

Definition store : Type := list (dict entry).

(** [{}]: a new empty dictionary, at the next free address *)
Definition alloc (h : store) : nat * store :=
  (List.length h, (h ++ [[]])%list).

Definition deref (h : store) (a : nat) : dict entry := nth a h [].

Fixpoint assign (h : store) (a : nat) (d : dict entry) : store :=
  match h, a with
  | [], _ => []
  | _ :: more, O => d :: more
  | d0 :: more, S a' => d0 :: assign more a' d
  end.

Section LoopRef.
(** The recursive call. *)
Variable flatten : value -> string -> store -> outcome (nat * store).

Fixpoint flatten_loop_ref (prefix : string) (items : list (string * value))
    (settings : nat) (h : store) {struct items} : outcome store :=
  match items with
  | [] => Returns h
  | (key, value) :: rest =>
      let full_key := full_key_of prefix key in
      if is_structural value then
        match flatten value full_key h with
        | Returns (nested, h1) =>
            flatten_loop_ref prefix rest settings
              (assign h1 settings
                 (PyDict.update (deref h1 settings) (deref h1 nested)))
        | Raises e => Raises e
        end
      else
        flatten_loop_ref prefix rest settings
          (assign h settings (add_setting (deref h settings) full_key value))
  end.
End LoopRef.

Fixpoint flatten_settings_ref (obj : value) (prefix : string) (h : store)
    {struct obj} : outcome (nat * store) :=
  match obj with
  | VDict items =>
      let (settings, h0) := alloc h in
      match flatten_loop_ref flatten_settings_ref prefix items settings h0 with
      | Returns h1 => Returns (settings, h1)
      | Raises e => Raises e
      end
  | _ => Raises (no_items obj)
  end.

(** What a call does to the store: a new dictionary at the next free
    address holds the flattened leaves, and the dictionaries that were
    there are as they were. *)
Definition runs_as_pure (v : value) : Prop :=
  forall prefix h,
    exists h',
      flatten_settings_ref v prefix h = Returns (List.length h, h')
      /\ List.length h < List.length h'
      /\ deref h' (List.length h) = store_all [] (leaves prefix v)
      /\ forall a, a < List.length h -> deref h' a = deref h a.

(** ** The call as the interpreter runs it

    Two things can end a call of [flatten_settings] on a mapping which the
    functions above leave out.  The test [setting_type == "string" and
    value] of line 103 asks the value for its truth; for a value of one of
    the classes [infer_type] names the answer is [truth], for an object of
    another class it is what the class computes, and the class may raise
    instead.  And each call of [flatten_settings] inside another takes
    room on the stack of the interpreter, which is bounded.
    [flatten_settings_run] is [flatten_settings] with both written out. *)

Section Run.
(** The objects whose truth test raises. *)
Variable raising : value -> bool.

(** [bool(value)], as the interpreter evaluates it *)
Definition truth_test (value : value) : outcome bool :=
  match value with
  | VOther type_name _ =>
      if raising value then Raises (Foreign type_name)
      else Returns (truth value)
  | _ => Returns (truth value)
  end.

(** [test and value], as a condition *)
Definition and_truth (test : bool) (value : value) : outcome bool :=
  if test then truth_test value else Returns false.

(** The [if]/[elif] chain of lines 102 to 108. *)
Definition keeps_default_run (setting_type : string) (value : value)
  : outcome bool :=
  if negb (is_none value) then
    match and_truth (String.eqb setting_type "string") value with
    | Raises e => Raises e
    | Returns true => Returns true
    | Returns false =>
        if mem setting_type ["number"; "boolean"] then Returns true
        else and_truth (String.eqb setting_type "array") value
    end
  else Returns false.

(** The [else] branch of the loop body. *)
Definition add_setting_run (settings : dict entry) (full_key : string)
    (value : value) : outcome (dict entry) :=
  let setting_type := infer_type value in
  let description := describe full_key in
  let category := categorize full_key in
  let settings :=
    PyDict.set settings full_key
      (mkEntry full_key setting_type description category None) in
  match keeps_default_run setting_type value with
  | Raises e => Raises e
  | Returns true =>
      Returns (PyDict.modify settings full_key (with_default_value value))
  | Returns false => Returns settings
  end.

Section LoopRun.
(** The recursive call. *)
Variable flatten : value -> string -> outcome (dict entry).

Fixpoint flatten_loop_run (prefix : string) (items : list (string * value))
    (settings : dict entry) {struct items} : outcome (dict entry) :=
  match items with
  | [] => Returns settings
  | (key, value) :: rest =>
      let full_key := full_key_of prefix key in
      if is_structural value then
        match flatten value full_key with
        | Returns nested =>
            flatten_loop_run prefix rest (PyDict.update settings nested)
        | Raises e => Raises e
        end
      else
        match add_setting_run settings full_key value with
        | Returns settings' => flatten_loop_run prefix rest settings'
        | Raises e => Raises e
        end
  end.
End LoopRun.

(** [depth] is the number of calls of [flatten_settings], one inside the
    other, the stack still has room for (each with the calls of
    [infer_type] and of the generator of line 62 it makes itself). *)
Fixpoint flatten_settings_run (depth : nat) (obj : value) (prefix : string)
    {struct depth} : outcome (dict entry) :=
  match depth with
  | O => Raises RecursionError
  | S depth' =>
      match obj with
      | VDict items =>
          flatten_loop_run (flatten_settings_run depth') prefix items []
      | _ => Raises (no_items obj)
      end
  end.
End Run.



(** ** Preprocessing in [fetch_default_json]

    The text that was fetched and decoded, as it goes through the loop
    over its lines and the regular-expression substitution, up to the call
    of [json.loads]. *)

Definition newline : ascii := "010"%char.

(** ['\n'], the separator of [split] and [join] *)
Definition line_feed : string := String newline "".

(** The body of the loop over the lines. *)
Definition clean_line (line : string) : string :=
  if PyStr.contains "//" line then
    if PyStr.contains "http://" line || PyStr.contains "https://" line
    then line
    else PyStr.slice_to line (PyStr.find "//" line)
  else line.

(** [content.split('\n')], the loop, and ['\n'.join(cleaned_lines)] *)
Definition strip_comments (content : string) : string :=
  PyStr.join line_feed (map clean_line (PyStr.split newline content)).

(** The code points [\s] matches in a [str] pattern, each by its UTF-8
    encoding: U+0009 to U+000D, U+001C to U+0020, U+0085, U+00A0, U+1680,
    U+2000 to U+200A, U+2028, U+2029, U+202F, U+205F, U+3000. *)
Definition space_length (s : string) : nat :=
  match s with
  | EmptyString => 0
  | String c rest =>
      let n := nat_of_ascii c in
      if (((9 <=? n) && (n <=? 13)) || ((28 <=? n) && (n <=? 32)))%nat then 1
      else
        match rest with
        | EmptyString => 0
        | String d rest' =>
            let m := nat_of_ascii d in
            if ((n =? 194) && ((m =? 133) || (m =? 160)))%nat then 2
            else
              match rest' with
              | EmptyString => 0
              | String e _ =>
                  let k := nat_of_ascii e in
                  if ((n =? 225) && (m =? 154) && (k =? 128))%nat then 3
                  else if ((n =? 226) && (m =? 128)
                           && (((128 <=? k) && (k <=? 138))
                               || (k =? 168) || (k =? 169) || (k =? 175)))%nat
                  then 3
                  else if ((n =? 226) && (m =? 129) && (k =? 159))%nat then 3
                  else if ((n =? 227) && (m =? 128) && (k =? 128))%nat then 3
                  else 0
              end
        end
  end.

(** The number of bytes [\s*] takes at the head of [s]; [inside] counts
    the bytes of the current code point still to pass. *)
Fixpoint space_run (inside : nat) (s : string) : nat :=
  match s with
  | EmptyString => 0
  | String _ rest =>
      match inside with
      | S k => S (space_run k rest)
      | O =>
          match space_length s with
          | O => 0
          | S k => S (space_run k rest)
          end
      end
  end.

(** [[}\]]] *)
Definition is_closer (c : ascii) : bool :=
  Ascii.eqb c "}" || Ascii.eqb c "]".

(** Does [\s*[}\]]] match at the head of [s]?  If so, the length of the
    match. *)
Definition closer_ahead (s : string) : option nat :=
  let n := space_run 0 s in
  match String.get n s with
  | Some c => if is_closer c then Some (S n) else None
  | None => None
  end.

(** [re.sub(r',(\s*[}\]])', r'\1', s)]: the text is scanned from left to
    right; where the pattern matches, the comma is dropped, the group is
    copied and the scan resumes behind the match.  [copy] counts the
    bytes of the group still to copy. *)
Fixpoint sub_trailing (copy : nat) (s : string) : string :=
  match s with
  | EmptyString => EmptyString
  | String c rest =>
      match copy with
      | S k => String c (sub_trailing k rest)
      | O =>
          if Ascii.eqb c "," then
            match closer_ahead rest with
            | Some n => sub_trailing n rest
            | None => String c (sub_trailing 0 rest)
            end
          else String c (sub_trailing 0 rest)
      end
  end.

Definition remove_trailing_commas (s : string) : string := sub_trailing 0 s.

(** [cleaned_content], the argument of [json.loads] *)
Definition preprocess (content : string) : string :=
  remove_trailing_commas (strip_comments content).

(** ** JSON texts

    A recogniser for the grammar of RFC 8259, one byte at a time: the
    mode says what may come next and the stack holds the arrays and
    objects that are open.  With [trailing] set it also takes one comma
    before the bracket that closes an array or an object. *)

Module Json.

Inductive container : Type := Arr | Obj.

(** Inside a string: plain characters, after a backslash, or inside
    [\uXXXX] with [more] hexadecimal digits to come after the next. *)
Inductive strstate : Type := SChar | SEsc | SHex (more : nat).

Inductive numstate : Type :=
| NMinus | NZero | NInt | NDot | NFrac | NExp | NSign | NExpDigits.

Inductive literal : Type := LTrue | LFalse | LNull.

Definition spelling (w : literal) : string :=
  match w with
  | LTrue => "true"
  | LFalse => "false"
  | LNull => "null"
  end.

Inductive mode : Type :=
| Value
| ValueOrClose
| Key
| KeyOrClose
| Colon
| After
| Str (is_key : bool) (s : strstate)
| Num (n : numstate)
| Lit (w : literal) (pos : nat).

Definition state : Type := mode * list container.

Definition init : state := (Value, []).

Definition is_ws (c : ascii) : bool :=
  Ascii.eqb c " " || Ascii.eqb c "009" || Ascii.eqb c "010"
  || Ascii.eqb c "013".

Definition is_digit (c : ascii) : bool :=
  let n := nat_of_ascii c in ((48 <=? n) && (n <=? 57))%nat.

Definition is_hex (c : ascii) : bool :=
  let n := nat_of_ascii c in
  (((48 <=? n) && (n <=? 57)) || ((65 <=? n) && (n <=? 70))
   || ((97 <=? n) && (n <=? 102)))%nat.

Definition is_control (c : ascii) : bool := (nat_of_ascii c <? 32)%nat.

Definition closer_of (ct : container) : ascii :=
  match ct with Arr => "]"%char | Obj => "}"%char end.

(** The first character of a value; [Lit w pos] is the literal [w] of
    which [pos] characters have been read. *)
Definition start_value (c : ascii) (stack : list container) : option state :=
  if Ascii.eqb c "[" then Some (ValueOrClose, Arr :: stack)
  else if Ascii.eqb c "{" then Some (KeyOrClose, Obj :: stack)
  else if Ascii.eqb c quote then Some (Str false SChar, stack)
  else if Ascii.eqb c "-" then Some (Num NMinus, stack)
  else if Ascii.eqb c "0" then Some (Num NZero, stack)
  else if is_digit c then Some (Num NInt, stack)
  else if Ascii.eqb c "t" then Some (Lit LTrue 1, stack)
  else if Ascii.eqb c "f" then Some (Lit LFalse 1, stack)
  else if Ascii.eqb c "n" then Some (Lit LNull 1, stack)
  else None.

(** A closing bracket. *)
Definition close (c : ascii) (stack : list container) : option state :=
  match stack with
  | ct :: below => if Ascii.eqb c (closer_of ct) then Some (After, below)
                   else None
  | [] => None
  end.

(** What may follow a value. *)
Definition after_value (trailing : bool) (c : ascii) (stack : list container)
  : option state :=
  if is_ws c then Some (After, stack)
  else if Ascii.eqb c "," then
    match stack with
    | Arr :: _ => Some (if trailing then ValueOrClose else Value, stack)
    | Obj :: _ => Some (if trailing then KeyOrClose else Key, stack)
    | [] => None
    end
  else close c stack.

Definition in_string (s : strstate) (c : ascii) : option strstate :=
  match s with
  | SChar =>
      if Ascii.eqb c quote then None
      else if Ascii.eqb c "\" then Some SEsc
      else if is_control c then None
      else Some SChar
  | SEsc =>
      if Ascii.eqb c "u" then Some (SHex 3)
      else if Ascii.eqb c quote || Ascii.eqb c "\" || Ascii.eqb c "/"
              || Ascii.eqb c "b" || Ascii.eqb c "f" || Ascii.eqb c "n"
              || Ascii.eqb c "r" || Ascii.eqb c "t"
      then Some SChar
      else None
  | SHex more =>
      if is_hex c then Some (match more with O => SChar | S k => SHex k end)
      else None
  end.

Definition in_number (n : numstate) (c : ascii) : option numstate :=
  let exponent := Ascii.eqb c "e" || Ascii.eqb c "E" in
  match n with
  | NMinus => if Ascii.eqb c "0" then Some NZero
              else if is_digit c then Some NInt else None
  | NZero => if Ascii.eqb c "." then Some NDot
             else if exponent then Some NExp else None
  | NInt => if is_digit c then Some NInt
            else if Ascii.eqb c "." then Some NDot
            else if exponent then Some NExp else None
  | NDot => if is_digit c then Some NFrac else None
  | NFrac => if is_digit c then Some NFrac
             else if exponent then Some NExp else None
  | NExp => if Ascii.eqb c "+" || Ascii.eqb c "-" then Some NSign
            else if is_digit c then Some NExpDigits else None
  | NSign => if is_digit c then Some NExpDigits else None
  | NExpDigits => if is_digit c then Some NExpDigits else None
  end.

(** The states in which a number may end. *)
Definition complete (n : numstate) : bool :=
  match n with
  | NZero | NInt | NFrac | NExpDigits => true
  | _ => false
  end.

Definition step (trailing : bool) (st : state) (c : ascii) : option state :=
  let (m, stack) := st in
  match m with
  | Value =>
      if is_ws c then Some st else start_value c stack
  | ValueOrClose =>
      if is_ws c then Some st
      else if is_closer c then close c stack
      else start_value c stack
  | Key =>
      if is_ws c then Some st
      else if Ascii.eqb c quote then Some (Str true SChar, stack)
      else None
  | KeyOrClose =>
      if is_ws c then Some st
      else if Ascii.eqb c quote then Some (Str true SChar, stack)
      else close c stack
  | Colon =>
      if is_ws c then Some st
      else if Ascii.eqb c ":" then Some (Value, stack)
      else None
  | After => after_value trailing c stack
  | Str is_key s =>
      match s, Ascii.eqb c quote with
      | SChar, true => Some (if is_key then Colon else After, stack)
      | _, _ =>
          match in_string s c with
          | Some s' => Some (Str is_key s', stack)
          | None => None
          end
      end
  | Num n =>
      match in_number n c with
      | Some n' => Some (Num n', stack)
      | None => if complete n then after_value trailing c stack else None
      end
  | Lit w pos =>
      match String.get pos (spelling w) with
      | Some d =>
          if Ascii.eqb c d
          then Some (if (S pos =? String.length (spelling w))%nat then After
                     else Lit w (S pos), stack)
          else None
      | None => None
      end
  end.

Fixpoint run (trailing : bool) (st : state) (text : string) : option state :=
  match text with
  | EmptyString => Some st
  | String c rest =>
      match step trailing st c with
      | Some st' => run trailing st' rest
      | None => None
      end
  end.

(** The text is over and is a JSON text. *)
Definition accepting (st : state) : bool :=
  match st with
  | (After, []) => true
  | (Num n, []) => complete n
  | _ => false
  end.

Definition accepts (trailing : bool) (text : string) : bool :=
  match run trailing init text with
  | Some st => accepting st
  | None => false
  end.

(** *** Line comments

    The dialect with comments: outside strings, [//] opens a comment that
    runs to the end of the line and counts as white space. *)

Inductive phase : Type := Code | SlashSeen | InComment.

Definition in_str (st : state) : bool :=
  match st with
  | (Str _ _, _) => true
  | _ => false
  end.

Definition step_commented (trailing : bool) (pst : phase * state) (c : ascii)
  : option (phase * state) :=
  let (ph, st) := pst in
  match ph with
  | InComment =>
      Some (if Ascii.eqb c newline then Code else InComment, st)
  | SlashSeen =>
      if Ascii.eqb c "/" then Some (InComment, st) else None
  | Code =>
      if negb (in_str st) && Ascii.eqb c "/" then
        match step trailing st " " with
        | Some st' => Some (SlashSeen, st')
        | None => None
        end
      else
        match step trailing st c with
        | Some st' => Some (Code, st')
        | None => None
        end
  end.

Fixpoint run_commented (trailing : bool) (pst : phase * state) (text : string)
  : option (phase * state) :=
  match text with
  | EmptyString => Some pst
  | String c rest =>
      match step_commented trailing pst c with
      | Some pst' => run_commented trailing pst' rest
      | None => None
      end
  end.

End Json.

(** Strict JSON: what the preprocessing has to produce. *)
Definition json_valid (text : string) : bool := Json.accepts false text.

(** The dialect the preprocessing is given: JSON with [//] line comments
    outside strings and a single trailing comma before a closing bracket. *)
Definition dialect_valid (text : string) : bool :=
  match Json.run_commented true (Json.Code, Json.init) text with
  | Some (Json.SlashSeen, _) => false
  | Some (_, st) => Json.accepting st
  | None => false
  end.

(** *** Comments, line by line

    A line is scanned from its start, which lies outside string literals
    since a JSON string does not run over a line break. *)

Inductive scan : Type := Outside | Inside | Escaped.

Definition scan_step (sc : scan) (c : ascii) : scan :=
  match sc with
  | Outside => if Ascii.eqb c quote then Inside else Outside
  | Inside =>
      if Ascii.eqb c quote then Outside
      else if Ascii.eqb c "\" then Escaped
      else Inside
  | Escaped => Inside
  end.

Definition outside (sc : scan) : bool :=
  match sc with Outside => true | _ => false end.

(** Where the comment of a line starts: the position of the first [//]
    that is outside string literals. *)
Fixpoint comment_from (sc : scan) (line : string) : option nat :=
  match line with
  | EmptyString => None
  | String c rest =>
      if outside sc && String.prefix "//" line then Some 0
      else option_map S (comment_from (scan_step sc c) rest)
  end.

Definition comment_start (line : string) : option nat :=
  comment_from Outside line.

(** The lines on which the loop is right: a line that contains [//] and
    neither [http://] nor [https://] has its first [//] outside string
    literals, so that what is cut off is the comment; a line that contains
    [//] and one of [http://], [https://] has no comment. *)
Definition line_ok (line : string) : bool :=
  if PyStr.contains "//" line then
    if PyStr.contains "http://" line || PyStr.contains "https://" line then
      match comment_start line with
      | None => true
      | Some _ => false
      end
    else
      match comment_start line with
      | Some n => (Z.of_nat n =? PyStr.find "//" line)%Z
      | None => false
      end
  else true.

Definition lines_ok (content : string) : bool :=
  forallb line_ok (PyStr.split newline content).

(** A byte of the encoding of a white-space code point is a control
    character, a space or a byte of a multi-byte sequence. *)
Definition blank_byte (c : ascii) : bool :=
  let n := nat_of_ascii c in ((n <=? 32) || (128 <=? n))%nat.

(** The text at which the copy of a match of [\s*[}\]]] stands, with
    [copy] bytes of it to go: blank bytes up to a closing bracket. *)
Fixpoint group (copy : nat) (s : string) : bool :=
  match copy, s with
  | O, _ => true
  | S O, String c _ => is_closer c
  | S k, String c rest => blank_byte c && group k rest
  | S _, EmptyString => false
  end.

(** The first [n] bytes of [s] are there and are blank. *)
Fixpoint all_blank (n : nat) (s : string) : bool :=
  match n, s with
  | O, _ => true
  | S k, String c rest => blank_byte c && all_blank k rest
  | S _, EmptyString => false
  end.

(** The mode a comma leads to when trailing commas are taken, the mode
    strict JSON has in its place, and the modes in which a value is over. *)
Definition reopened (m : Json.mode) (stack : list Json.container) : bool :=
  match m, stack with
  | Json.ValueOrClose, Json.Arr :: _ => true
  | Json.KeyOrClose, Json.Obj :: _ => true
  | _, _ => false
  end.

Definition strict_of (m : Json.mode) : Json.mode :=
  match m with
  | Json.ValueOrClose => Json.Value
  | Json.KeyOrClose => Json.Key
  | _ => m
  end.

Definition ended (m : Json.mode) : bool :=
  match m with
  | Json.After => true
  | Json.Num n => Json.complete n
  | _ => false
  end.

(** The scanner's view of a state of the recogniser. *)
Definition scan_of (st : Json.state) : scan :=
  match st with
  | (Json.Str _ Json.SEsc, _) => Escaped
  | (Json.Str _ _, _) => Inside
  | _ => Outside
  end.

(** The character [c] does not occur in [s]. *)
Fixpoint free_of (c : ascii) (s : string) : bool :=
  match s with
  | EmptyString => true
  | String d rest => negb (Ascii.eqb d c) && free_of c rest
  end.

(** ** More on the flattened mapping *)

(** The keys in the order in which they are first met. *)
Definition first_seen_from (seen keys : list string) : list string :=
  fold_left (fun seen k => if mem k seen then seen else (seen ++ [k])%list)
    keys seen.

Definition first_seen (keys : list string) : list string :=
  first_seen_from [] keys.

(** The values of the fields [type] and [category]. *)
Definition type_labels : list string :=
  ["boolean"; "number"; "string"; "array"; "object"].

Definition category_labels : list string :=
  (map snd category_rules ++ ["general"])%list.

(** A key that is not empty and holds no dot. *)
Definition plain_key (k : string) : bool :=
  negb (String.eqb k "") && free_of "." k.

(** The keys the traversal joins into paths are plain. *)
Fixpoint plain_keys (v : value) : bool :=
  match v with
  | VDict items =>
      forallb (fun kv =>
                 plain_key (fst kv)
                 && (if is_structural (snd kv) then plain_keys (snd kv)
                     else true)) items
  | _ => true
  end.

(** A path that belongs to a key: the full key itself or a path below. *)
Definition under (full_key path : string) : Prop :=
  path = full_key \/ exists suffix, path = full_key ++ "." ++ suffix.

(** The text without the character [c]. *)
Fixpoint erase (c : ascii) (s : string) : string :=
  match s with
  | EmptyString => EmptyString
  | String d rest =>
      if Ascii.eqb d c then erase c rest else String d (erase c rest)
  end.

(** ** [generate_reference_yaml]

    The runs in which [fetch_default_json] returns, [default_settings]
    being what it returned.  What a run does to the world outside is a
    sequence of effects, and each of them is carried out by the
    environment, which may raise instead ([open] when the directory is
    missing, [yaml.dump] or the closing of the file when the disk is full,
    [print] when the output is closed).  The trace of a run lists the
    effects that were carried out; a file that was opened and not dumped
    is left empty or with a part of the document. *)

(** The dictionary [reference]. *)
Record reference : Type := mkReference {
  app_name : string;
  config_path : string;
  config_type : string;
  settings : dict entry
}.

(** [Printed]: a line was written to the standard output.  [Opened]: the
    file was opened for writing, which empties it.  [Dumped]: the document
    was serialised into the open file and the file closed, which is the
    body and the end of the [with] statement. *)
Inductive event : Type :=
| Printed (text : string)
| Opened (path : string)
| Dumped (path : string) (document : reference).

(** [d.get(key, default)] *)
Definition get_or {V : Type} (d : dict V) (key : string) (default : V) : V :=
  match PyDict.get d key with
  | Some v => v
  | None => default
  end.

(** [str(n)] for an integer that is not negative *)
Definition decimal (n : nat) : string :=
  NilEmpty.string_of_uint (Nat.to_uint n).

(** The loop that counts the settings of each category. *)
Definition count_categories (flattened : dict entry) : dict nat :=
  fold_left
    (fun categories setting =>
       let cat := category setting in
       PyDict.set categories cat (get_or categories cat 0 + 1))
    (map snd flattened) [].

(** [a <= b] on pairs of a string and an integer: strings compare by
    code points, which is the order of their encodings. *)
Definition item_leb (a b : string * nat) : bool :=
  match String.compare (fst a) (fst b) with
  | Lt => true
  | Eq => (snd a <=? snd b)%nat
  | Gt => false
  end.

(** [sorted(items)], a stable sort *)
Fixpoint insert_item (x : string * nat) (l : list (string * nat))
  : list (string * nat) :=
  match l with
  | [] => [x]
  | y :: more => if item_leb x y then x :: l else y :: insert_item x more
  end.

Definition sorted (items : list (string * nat)) : list (string * nat) :=
  fold_right insert_item [] items.

Definition output_path : string :=
  "/Users/m/code/muka-hq/configtoggle/configs/zed.yaml".

(** [print(f"  {cat}: {count}")] *)
Definition category_line (item : string * nat) : event :=
  Printed ("  " ++ fst item ++ ": " ++ decimal (snd item)).

(** The effects before the call of [flatten_settings]. *)
Definition opening : list event :=
  [Printed "Fetching Zed default settings..."; Printed "Flattening settings..."].

(** The effects after it, from line 130 on. *)
Definition closing (flattened : dict entry) : list event :=
  ([Opened output_path;
    Dumped output_path
      (mkReference "Zed" "~/.config/zed/settings.json" "json" flattened);
    Printed ("Generated " ++ decimal (List.length flattened)
             ++ " settings in " ++ output_path);
    Printed (line_feed ++ "Settings by category:")]
   ++ map category_line (sorted (count_categories flattened)))%list.

Section Environment.
(** What the environment answers when asked to carry out an effect; a
    run asks for each of its effects once. *)
Variable perform : event -> outcome unit.
Variable raising : value -> bool.
Variable depth : nat.

(** Effects one after the other, up to the first that raises. *)
Fixpoint perform_all (events : list event) : list event * outcome unit :=
  match events with
  | [] => ([], Returns tt)
  | ev :: more =>
      match perform ev with
      | Raises e => ([], Raises e)
      | Returns _ =>
          let (done, result) := perform_all more in (ev :: done, result)
      end
  end.

Definition generate_reference_yaml (default_settings : value)
  : list event * outcome unit :=
  match perform_all opening with
  | (started, Raises e) => (started, Raises e)
  | (started, Returns _) =>
      match flatten_settings_run raising depth default_settings "" with
      | Raises e => (started, Raises e)
      | Returns flattened =>
          let (done, result) := perform_all (closing flattened) in
          ((started ++ done)%list, result)
      end
  end.
End Environment.

(** The number of settings of a category. *)
Definition settings_in (cat : string) (flattened : dict entry) : nat :=
  List.length
    (filter (fun kv => String.eqb (category (snd kv)) cat) flattened).

(** The effects on the output file. *)
Definition on_file (ev : event) : bool :=
  match ev with
  | Printed _ => false
  | Opened _ | Dumped _ _ => true
  end.

(** The mappings the traversal enters: the root and the structural
    mappings below it. *)
Fixpoint mappings_entered (v : value) : nat :=
  match v with
  | VDict items =>
      S (list_sum
           (map (fun kv =>
                   if is_structural (snd kv) then mappings_entered (snd kv)
                   else 0) items))
  | _ => 0
  end.

(** A comma of the text stands before white space and a closing bracket. *)
Fixpoint has_trailing_comma (s : string) : bool :=
  match s with
  | EmptyString => false
  | String c rest =>
      (Ascii.eqb c ","
       && match closer_ahead rest with Some _ => true | None => false end)
      || has_trailing_comma rest
  end.

(** * Properties *)

(** ** Dictionaries: lookups, keys and order *)

Module PyDictFacts.
Import PyDict.

Section WithValues.
Context {V : Type}.
Implicit Types (d : dict V) (k : string) (v : V).

Lemma get_set d k v k' :
  get (set d k v) k' = if String.eqb k k' then Some v else get d k'.
Proof.
  induction d as [|[k0 v0] d IH]; simpl.
  - reflexivity.
  - destruct (String.eqb k0 k) eqn:E0; simpl.
    + apply String.eqb_eq in E0; subst k0.
      destruct (String.eqb k k'); reflexivity.
    + rewrite IH. destruct (String.eqb k0 k') eqn:E1; trivial.
      apply String.eqb_eq in E1; subst k'. now rewrite String.eqb_sym, E0.
Qed.

Lemma set_absent d k v : ~ In k (keys d) -> set d k v = (d ++ [(k, v)])%list.
Proof.
  induction d as [|[k0 v0] d IH]; simpl; intros H.
  - reflexivity.
  - destruct (String.eqb k0 k) eqn:E.
    + apply String.eqb_eq in E. tauto.
    + rewrite IH by tauto. reflexivity.
Qed.

Lemma keys_set_present d k v : In k (keys d) -> keys (set d k v) = keys d.
Proof.
  induction d as [|[k0 v0] d IH]; simpl; intros H.
  - contradiction.
  - destruct (String.eqb k0 k) eqn:E; simpl.
    + reflexivity.
    + apply String.eqb_neq in E. rewrite IH by tauto. reflexivity.
Qed.

Lemma keys_set_absent d k v :
  ~ In k (keys d) -> keys (set d k v) = (keys d ++ [k])%list.
Proof.
  intros H. rewrite set_absent by assumption.
  unfold keys. now rewrite map_app.
Qed.

Lemma In_keys_set d k v k' :
  In k' (keys (set d k v)) <-> k' = k \/ In k' (keys d).
Proof.
  destruct (in_dec string_dec k (keys d)) as [Hin|Hout].
  - rewrite keys_set_present by assumption.
    split; [tauto | intros [->|]; assumption].
  - rewrite keys_set_absent, in_app_iff by assumption. simpl.
    split; [intros [|[|[]]]; auto | intros [|]; auto].
Qed.

Lemma NoDup_keys_set d k v : NoDup (keys d) -> NoDup (keys (set d k v)).
Proof.
  intros Hd. destruct (in_dec string_dec k (keys d)) as [Hin|Hout].
  - now rewrite keys_set_present.
  - rewrite keys_set_absent by assumption.
    apply NoDup_app; [assumption | repeat constructor; intros [] | ].
    intros x Hx [<-|[]]. contradiction.
Qed.

Lemma set_set d k v v' : set (set d k v) k v' = set d k v'.
Proof.
  induction d as [|[k0 v0] d IH]; simpl.
  - now rewrite String.eqb_refl.
  - destruct (String.eqb k0 k) eqn:E; simpl; rewrite E.
    + reflexivity.
    + now rewrite IH.
Qed.

(** Assignments to different keys commute as soon as one of the keys
    is already there. *)
Lemma set_comm d k v k' v' :
  k <> k' -> In k (keys d) ->
  set (set d k' v') k v = set (set d k v) k' v'.
Proof.
  intros Hne. induction d as [|[k0 v0] d IH]; simpl; intros Hin.
  - contradiction.
  - destruct (String.eqb k0 k') eqn:E'; destruct (String.eqb k0 k) eqn:E;
      simpl; rewrite ?E, ?E'; trivial.
    + apply String.eqb_eq in E, E'. congruence.
    + apply String.eqb_neq in E. rewrite IH by tauto. reflexivity.
Qed.

Lemma modify_set d k v f : modify (set d k v) k f = set d k (f v).
Proof.
  induction d as [|[k0 v0] d IH]; simpl.
  - now rewrite String.eqb_refl.
  - destruct (String.eqb k0 k) eqn:E; simpl; rewrite E.
    + reflexivity.
    + now rewrite IH.
Qed.

Lemma update_cons d k v other :
  update d ((k, v) :: other) = update (set d k v) other.
Proof. reflexivity. Qed.

Lemma set_update d other k v :
  In k (keys d) -> ~ In k (keys other) ->
  set (update d other) k v = update (set d k v) other.
Proof.
  revert d. induction other as [|[k0 v0] other IH]; intros d Hin Hout.
  - reflexivity.
  - simpl in Hout. rewrite !update_cons.
    rewrite IH by (rewrite ?In_keys_set; tauto).
    rewrite (set_comm d k v k0 v0) by (try assumption; intuition congruence).
    reflexivity.
Qed.

(** Updating with a dictionary to which a key was assigned is updating
    and then assigning the key. *)
Lemma update_set d other k v :
  NoDup (keys other) ->
  update d (set other k v) = set (update d other) k v.
Proof.
  revert d. induction other as [|[k0 v0] other IH]; intros d Hnd.
  - reflexivity.
  - inversion Hnd as [|? ? Hout Hnd']; subst. simpl set.
    destruct (String.eqb k0 k) eqn:E.
    + apply String.eqb_eq in E; subst k0. rewrite !update_cons.
      rewrite <- (set_set d k v0 v).
      symmetry. apply set_update; [|assumption].
      rewrite In_keys_set. now left.
    + rewrite !update_cons. now apply IH.
Qed.



End WithValues.
End PyDictFacts.

(** ** The flattened mapping is the store of the leaves *)

Lemma add_setting_set settings full_key value :
  add_setting settings full_key value
  = PyDict.set settings full_key (entry_of full_key value).
Proof.
  unfold add_setting, entry_of.
  destruct (keeps_default (infer_type value) value).
  - now rewrite PyDictFacts.modify_set.
  - reflexivity.
Qed.

Lemma store_all_app settings ls ls' :
  store_all settings (ls ++ ls') = store_all (store_all settings ls) ls'.
Proof. apply fold_left_app. Qed.

Lemma store_all_cons settings k v ls :
  store_all settings ((k, v) :: ls)
  = store_all (PyDict.set settings k (entry_of k v)) ls.
Proof. unfold store_all; simpl. now rewrite add_setting_set. Qed.

Lemma NoDup_keys_store_all ls : forall settings,
  NoDup (PyDict.keys settings) -> NoDup (PyDict.keys (store_all settings ls)).
Proof.
  induction ls as [|[k v] ls IH]; intros settings Hnd.
  - assumption.
  - rewrite store_all_cons. apply IH. now apply PyDictFacts.NoDup_keys_set.
Qed.

(** [settings.update(nested)], when [nested] was built from nothing by
    storing leaves, stores the same leaves into [settings]. *)
Lemma update_store_all settings ls :
  PyDict.update settings (store_all [] ls) = store_all settings ls.
Proof.
  induction ls as [|[k v] ls IH] using rev_ind.
  - reflexivity.
  - rewrite !store_all_app. unfold store_all at 1 3. simpl.
    rewrite !add_setting_set.
    rewrite PyDictFacts.update_set.
    + now rewrite IH.
    + apply NoDup_keys_store_all. constructor.
Qed.

Lemma flatten_loop_leaves items :
  Forall (fun kv => forall prefix,
            flatten_settings (snd kv) prefix
            = Returns (store_all [] (leaves prefix (snd kv)))
            \/ is_structural (snd kv) = false) items ->
  forall prefix settings,
    flatten_loop flatten_settings prefix items settings
    = Returns (store_all settings (walk_items leaves prefix items)).
Proof.
  induction 1 as [|[key value] items Hv _ IH]; intros prefix settings.
  - reflexivity.
  - cbn [flatten_loop walk_items snd] in *.
    destruct (is_structural value) eqn:Es.
    + destruct (Hv (full_key_of prefix key)) as [Hr|]; [|discriminate].
      rewrite Hr, IH, store_all_app. now rewrite update_store_all.
    + rewrite IH. cbn [app]. now rewrite store_all_cons, add_setting_set.
Qed.

Lemma flatten_settings_leaves items prefix :
  flatten_settings (VDict items) prefix
  = Returns (store_all [] (leaves prefix (VDict items))).
Proof.
  revert prefix.
  assert (H : forall v prefix,
             flatten_settings v prefix = Returns (store_all [] (leaves prefix v))
             \/ is_structural v = false).
  { induction v as [| | | | | |items' IH|] using value_rect_nested;
      intros prefix; try (right; reflexivity).
    left. simpl. apply flatten_loop_leaves.
    revert IH. apply Forall_impl. auto. }
  intros prefix. destruct (H (VDict items) prefix) as [Hr|Hs]; [exact Hr|].
  simpl. apply flatten_loop_leaves.
  apply Forall_forall. intros kv _ p. apply H.
Qed.

(** *** Lookups in a store of leaves *)

Lemma get_store_all ls : forall settings path,
  PyDict.get (store_all settings ls) path
  = match last_at ls path with
    | Some v => Some (entry_of path v)
    | None => PyDict.get settings path
    end.
Proof.
  induction ls as [|[k v] ls IH]; intros settings path.
  - reflexivity.
  - rewrite store_all_cons, IH. simpl.
    destruct (last_at ls path); [reflexivity|].
    rewrite PyDictFacts.get_set.
    destruct (String.eqb k path) eqn:E; [|reflexivity].
    apply String.eqb_eq in E. now subst.
Qed.

Lemma In_keys_store_all ls : forall settings path,
  In path (PyDict.keys (store_all settings ls))
  <-> In path (PyDict.keys settings) \/ In path (map fst ls).
Proof.
  induction ls as [|[k v] ls IH]; intros settings path.
  - simpl. tauto.
  - rewrite store_all_cons, IH, PyDictFacts.In_keys_set. simpl.
    intuition congruence.
Qed.

(** ** Paths below a prefix *)

Lemma full_key_of_nonempty prefix key :
  prefix <> "" -> full_key_of prefix key = prefix ++ "." ++ key.
Proof.
  intros H. unfold full_key_of.
  destruct (String.eqb prefix "") eqn:E; [|reflexivity].
  apply String.eqb_eq in E. contradiction.
Qed.

Lemma append_assoc (a b c : string) : (a ++ b) ++ c = a ++ b ++ c.
Proof. induction a; simpl; [reflexivity | now f_equal]. Qed.

Lemma append_nonempty_l (a b : string) : a <> "" -> a ++ b <> "".
Proof. destruct a; [contradiction | discriminate]. Qed.

Lemma walk_items_below p items :
  p <> "" ->
  Forall (fun kv => forall p, p <> "" -> forall path w,
            In (path, w) (leaves p (snd kv)) ->
            exists suffix, path = p ++ "." ++ suffix) items ->
  forall path w, In (path, w) (walk_items leaves p items) ->
  exists suffix, path = p ++ "." ++ suffix.
Proof.
  intros Hp. induction 1 as [|[key value] items Hv _ IH]; intros path w Hin.
  - contradiction.
  - cbn [walk_items snd] in *. apply in_app_or in Hin.
    destruct Hin as [Hin|Hin]; [|now apply IH with w].
    rewrite full_key_of_nonempty in Hin by assumption.
    destruct (is_structural value).
    + apply Hv in Hin; [|now apply append_nonempty_l].
      destruct Hin as [suffix ->]. exists (key ++ "." ++ suffix).
      now rewrite !append_assoc.
    + destruct Hin as [[= <- _]|[]]. now exists key.
Qed.

(** Below a non-empty prefix every path starts with the prefix and a dot. *)
Lemma leaves_below v : forall p, p <> "" -> forall path w,
  In (path, w) (leaves p v) -> exists suffix, path = p ++ "." ++ suffix.
Proof.
  induction v as [| | | | | |items IH|] using value_rect_nested;
    intros p Hp path w Hin; try contradiction.
  simpl in Hin. eapply walk_items_below; eauto.
Qed.

Lemma append_length (a b : string) :
  String.length (a ++ b) = String.length a + String.length b.
Proof. induction a; simpl; [reflexivity | now f_equal]. Qed.


(** ** The branching rule *)

Lemma mem_In k l : mem k l = true <-> In k l.
Proof.
  unfold mem. rewrite existsb_exists. split.
  - intros [x [Hin E]]. apply String.eqb_eq in E. now subst.
  - intros Hin. exists k. split; [assumption | apply String.eqb_refl].
Qed.





(** ** Type inference *)

(** C2.  [infer_type] gives a label to every value, by the first rule
    that applies in the order boolean, number (integer or float), string,
    array, object, and [string] when none applies, which is the case of
    null; a boolean, although an instance of the integer class, is
    [boolean] and never [number]. *)
Theorem infer_type_priority :
  (forall v, infer_type v = first_match (isinstance v) type_rules "string")
  /\ (forall v,
         infer_type v
         = match v with
           | VBool _ => "boolean"
           | VInt _ | VFloat _ => "number"
           | VStr _ => "string"
           | VList _ => "array"
           | VDict _ => "object"
           | VNone | VOther _ _ => "string"
           end)
  /\ (forall b,
         isinstance (VBool b) Cint = true
         /\ infer_type (VBool b) = "boolean"
         /\ infer_type (VBool b) <> "number").
Proof.
  split; [|split].
  - intros v. unfold infer_type, type_rules. cbn [first_match existsb].
    rewrite !orb_false_r. reflexivity.
  - intros []; reflexivity.
  - intros b. cbn. repeat split. discriminate.
Qed.

(** ** Empty mappings *)

Lemma walk_items_app walk prefix a b :
  walk_items walk prefix (a ++ b)%list
  = (walk_items walk prefix a ++ walk_items walk prefix b)%list.
Proof.
  induction a as [|[key value] a IH]; [reflexivity|].
  cbn [walk_items app]. now rewrite IH, app_assoc.
Qed.

(** C10.  A key whose value is the empty mapping is a structural level;
    the call on it returns no entry, so visiting the key leaves the
    settings as they were: the flattened mapping is the one of the tree
    without the key, and [flatten_settings({"k": {}})] is empty. *)
Theorem flatten_settings_empty_mapping :
  is_structural (VDict []) = true
  /\ (forall prefix, flatten_settings (VDict []) prefix = Returns [])
  /\ (forall prefix key rest settings,
         flatten_loop flatten_settings prefix ((key, VDict []) :: rest) settings
         = flatten_loop flatten_settings prefix rest settings)
  /\ (forall prefix key before after,
         flatten_settings (VDict (before ++ (key, VDict []) :: after)%list)
           prefix
         = flatten_settings (VDict (before ++ after)%list) prefix)
  /\ flatten_settings (VDict [("k", VDict [])]) "" = Returns [].
Proof.
  split; [reflexivity|]. split; [reflexivity|]. split; [reflexivity|].
  split; [|reflexivity].
  intros prefix key before after.
  rewrite !flatten_settings_leaves. cbn [leaves].
  now rewrite !walk_items_app.
Qed.

(** ** Entries of the flattened mapping *)

(** What [flatten_settings] returns holds, under each path, the entry of
    the last leaf the walker meets at that path. *)
Lemma flatten_settings_entry obj prefix settings path e :
  flatten_settings obj prefix = Returns settings ->
  PyDict.get settings path = Some e ->
  exists v, last_at (leaves prefix obj) path = Some v /\ e = entry_of path v.
Proof.
  intros Hr Hg. destruct obj; try discriminate.
  rewrite flatten_settings_leaves in Hr. injection Hr as <-.
  rewrite get_store_all in Hg.
  destruct (last_at _ path) as [v|]; [|discriminate].
  injection Hg as <-. now exists v.
Qed.

(** ** Substrings *)

Lemma prefix_iff (a s : string) :
  String.prefix a s = true <-> exists b, s = a ++ b.
Proof.
  revert s. induction a as [|c a IH]; intros s.
  - split; [now exists s | intros _; now destruct s].
  - destruct s as [|c' s]; simpl;
      [split; [discriminate | intros [b E]; discriminate]|].
    destruct (ascii_dec c c') as [->|Hne].
    + rewrite IH. split; intros [b E]; exists b; congruence.
    + split; [discriminate | intros [b E]; congruence].
Qed.

(** [needle in hay] is containment of [needle] as a contiguous run of
    characters, compared as they are. *)
Lemma contains_iff (needle hay : string) :
  PyStr.contains needle hay = true
  <-> exists before after, hay = before ++ needle ++ after.
Proof.
  induction hay as [|c hay IH]; cbn [PyStr.contains];
    rewrite orb_true_iff, prefix_iff.
  - split.
    + intros [[b E]|]; [|discriminate]. now exists "", b.
    + intros [before [after E]]. left. destruct before; [|discriminate].
      now exists after.
  - rewrite IH. split.
    + intros [[b E]|[before [after E]]].
      * now exists "", b.
      * exists (String c before), after. simpl. now f_equal.
    + intros [before [after E]]. destruct before as [|c' before].
      * left. now exists after.
      * right. exists before, after. simpl in E. congruence.
Qed.

(** ** Categories *)

Lemma categorize_first_match full_key :
  categorize full_key
  = first_match (fun needle => PyStr.contains needle full_key)
      category_rules "general".
Proof.
  unfold categorize, category_rules. cbn [first_match existsb].
  rewrite !orb_false_r, <- !orb_assoc. reflexivity.
Qed.

(** C3.  The category of an entry is the label of the first rule, in the
    order font, appearance, ui, git, ai, language, keybindings, editor,
    diagnostics, formatting, one of whose words occurs in the dotted path
    of the entry as a substring, case being significant, and [general]
    when none does; [git.font_style] is [font] and [vim_mode] is
    [keybindings]. *)
Theorem category_first_match :
  (forall obj prefix settings path e,
      flatten_settings obj prefix = Returns settings ->
      PyDict.get settings path = Some e ->
      name e = path
      /\ category e
         = first_match (fun needle => PyStr.contains needle path)
             category_rules "general")
  /\ (forall needle path,
         PyStr.contains needle path = true
         <-> exists before after, path = before ++ needle ++ after)
  /\ categorize "git.font_style" = "font"
  /\ categorize "vim_mode" = "keybindings"
  /\ categorize "Font" = "general".
Proof.
  split; [|split; [exact contains_iff | repeat split]].
  intros obj prefix settings path e Hr Hg.
  destruct (flatten_settings_entry _ _ _ _ _ Hr Hg) as [v [_ ->]].
  split; [reflexivity | apply categorize_first_match].
Qed.

(** C3 at [{"git": {"font_style": "italic"}}]. *)
Lemma category_first_match_witness :
  exists e,
    PyDict.get [("git.font_style", e)] "git.font_style" = Some e
    /\ category e = "font".
Proof.
  eexists. split; [reflexivity|].
  refine (proj2
    (proj1 category_first_match
       (VDict [("git", VDict [("font_style", VStr "italic")])]) ""
       _ "git.font_style" _ eq_refl eq_refl)).
Defined.

(** ** Descriptions *)

Lemma replace_char old new s :
  PyStr.replace (String old "") (String new "") s = swap_char old new s.
Proof.
  unfold PyStr.replace.
  induction s as [|c s IH]; [reflexivity|].
  cbn [PyStr.replace_go swap_char String.length Nat.sub].
  rewrite IH. simpl String.prefix.
  destruct (ascii_dec old c) as [->|Hne].
  - rewrite Ascii.eqb_refl. now destruct s.
  - destruct (Ascii.eqb c old) eqn:E; [|reflexivity].
    apply Ascii.eqb_eq in E. congruence.
Qed.

Lemma swap_swap_spaced s : swap_char "." " " (swap_char "_" " " s) = spaced s.
Proof.
  induction s as [|c s IH]; simpl; [reflexivity|]. rewrite IH. f_equal.
  destruct (Ascii.eqb c "_") eqn:E1; [reflexivity|].
  destruct (Ascii.eqb c "."); reflexivity.
Qed.

Lemma describe_spaced full_key :
  describe full_key = "Configuration for " ++ spaced full_key.
Proof.
  unfold describe. now rewrite !replace_char, swap_swap_spaced.
Qed.

(** C8.  The description of an entry is ["Configuration for "] followed
    by its dotted path with every underscore and every dot replaced by a
    space; [editor.scroll_beyond] gives
    ["Configuration for editor scroll beyond"]. *)
Theorem description_spaced :
  (forall obj prefix settings path e,
      flatten_settings obj prefix = Returns settings ->
      PyDict.get settings path = Some e ->
      description e = "Configuration for " ++ spaced path)
  /\ (forall full_key,
         describe full_key = "Configuration for " ++ spaced full_key)
  /\ describe "editor.scroll_beyond"
     = "Configuration for editor scroll beyond".
Proof.
  split; [|split; [exact describe_spaced | reflexivity]].
  intros obj prefix settings path e Hr Hg.
  destruct (flatten_settings_entry _ _ _ _ _ Hr Hg) as [v [_ ->]].
  apply describe_spaced.
Qed.

(** C8 at [{"editor": {"scroll_beyond": true}}]. *)
Lemma description_spaced_witness :
  exists e,
    PyDict.get [("editor.scroll_beyond", e)] "editor.scroll_beyond" = Some e
    /\ description e = "Configuration for editor scroll beyond".
Proof.
  eexists. split; [reflexivity|].
  refine (proj1 description_spaced
            (VDict [("editor", VDict [("scroll_beyond", VBool true)])]) ""
            _ "editor.scroll_beyond" _ eq_refl eq_refl).
Defined.

(** ** Default values *)

Lemma default_value_entry_of path v :
  default_value (entry_of path v) = default_by_shape v.
Proof.
  destruct v as [| | | | s |xs| |tn t]; try reflexivity.
  - destruct s; reflexivity.
  - destruct xs; reflexivity.
  - destruct t; reflexivity.
Qed.

(** C4, as stated, fails: the composite leaf [{"mode": "dark"}] under
    [theme] is neither null nor an empty string nor an empty array, and
    its entry has no default value. *)
Lemma default_value_as_stated_fails :
  ~ (forall obj prefix settings path e v,
        well_formed obj = true ->
        flatten_settings obj prefix = Returns settings ->
        PyDict.get settings path = Some e ->
        last_at (leaves prefix obj) path = Some v ->
        default_value e = default_as_stated v).
Proof.
  intros H.
  specialize (H (VDict [("theme", VDict [("mode", VStr "dark")])]) ""
                _ "theme" _ (VDict [("mode", VStr "dark")])
                eq_refl eq_refl eq_refl eq_refl).
  discriminate H.
Qed.

(** C4, amended.  The entry under a path comes from the last leaf the
    traversal meets there, and carries that leaf's value as default value
    unless the value is null, an empty string, an empty array or a
    mapping; booleans and numbers are always carried, [false] and [0]
    included, and an object of another class is carried when it is
    truthy.  Away from mappings and objects of other classes this is the
    rule as the specification words it. *)
Theorem default_value_by_shape :
  (forall obj prefix settings path e,
      flatten_settings obj prefix = Returns settings ->
      PyDict.get settings path = Some e ->
      exists v,
        last_at (leaves prefix obj) path = Some v
        /\ default_value e = default_by_shape v)
  /\ (forall b, default_by_shape (VBool b) = Some (VBool b))
  /\ (forall n, default_by_shape (VInt n) = Some (VInt n))
  /\ (forall x, default_by_shape (VFloat x) = Some (VFloat x))
  /\ (forall items, default_by_shape (VDict items) = None)
  /\ (forall w,
         isinstance w Cdict = false ->
         (forall type_name truthy, w <> VOther type_name truthy) ->
         default_by_shape w = default_as_stated w).
Proof.
  split.
  - intros obj prefix settings path e Hr Hg.
    destruct (flatten_settings_entry _ _ _ _ _ Hr Hg) as [v [Hl ->]].
    exists v. split; [exact Hl | apply default_value_entry_of].
  - repeat split.
    intros w Hd Ho.
    destruct w as [| | | | s |xs| |tn t];
      try reflexivity; try discriminate.
    + destruct s; reflexivity.
    + now destruct (Ho tn t).
Qed.

(** C4, amended, at [{"vim_mode": false, "theme": {"mode": "dark"}}]. *)
Lemma default_value_by_shape_witness :
  exists e v,
    last_at [("vim_mode", VBool false);
             ("theme", VDict [("mode", VStr "dark")])] "vim_mode" = Some v
    /\ default_value e = Some (VBool false).
Proof.
  destruct (proj1 default_value_by_shape
              (VDict [("vim_mode", VBool false);
                      ("theme", VDict [("mode", VStr "dark")])]) ""
              _ "vim_mode" _ eq_refl eq_refl) as [v [Hl Hd]].
  eexists. exists v. split; [exact Hl|].
  injection Hl as <-. exact Hd.
Defined.

(** ** Paths of the flattened mapping *)

Lemma store_all_distinct ls : forall settings,
  NoDup (PyDict.keys settings ++ map fst ls)%list ->
  store_all settings ls
  = (settings ++ map (fun kv => (fst kv, entry_of (fst kv) (snd kv))) ls)%list.
Proof.
  induction ls as [|[k v] ls IH]; intros settings Hnd.
  - simpl. now rewrite app_nil_r.
  - rewrite store_all_cons. simpl map in *.
    assert (Hout : ~ In k (PyDict.keys settings)).
    { intros Hin. apply NoDup_remove_2 in Hnd. apply Hnd.
      apply in_or_app. now left. }
    rewrite PyDictFacts.set_absent by assumption.
    rewrite IH.
    + now rewrite <- app_assoc.
    + unfold PyDict.keys in *. rewrite map_app, <- app_assoc. exact Hnd.
Qed.

(** C5, as stated, fails: in [{"a": {"b": 1}, "a.b": 2}] no mapping holds
    a key twice, two leaves have the dotted path [a.b], and the leaf [1]
    is not in the flattened mapping. *)
Lemma every_leaf_kept_fails :
  ~ (forall obj prefix settings path v,
        well_formed obj = true ->
        flatten_settings obj prefix = Returns settings ->
        In (path, v) (leaves prefix obj) ->
        PyDict.get settings path = Some (entry_of path v)).
Proof.
  intros H.
  specialize (H (VDict [("a", VDict [("b", VInt 1)]); ("a.b", VInt 2)]) ""
                _ "a.b" (VInt 1) eq_refl eq_refl (or_introl eq_refl)).
  discriminate H.
Qed.

(** C5, amended.  Flattening a mapping returns; the keys of the result
    are pairwise distinct and are exactly the dotted paths of the leaves
    the traversal reaches; under each path lies the entry of the last
    leaf met at that path, a later leaf replacing an earlier one with the
    same path; and when the paths of the leaves are pairwise distinct the
    result holds every leaf once, under its path, in traversal order. *)
Theorem flattened_paths :
  forall items prefix,
    exists settings,
      flatten_settings (VDict items) prefix = Returns settings
      /\ NoDup (PyDict.keys settings)
      /\ (forall path,
             In path (PyDict.keys settings)
             <-> In path (map fst (leaves prefix (VDict items))))
      /\ (forall path,
             PyDict.get settings path
             = option_map (entry_of path)
                 (last_at (leaves prefix (VDict items)) path))
      /\ (NoDup (map fst (leaves prefix (VDict items))) ->
          settings
          = map (fun kv => (fst kv, entry_of (fst kv) (snd kv)))
              (leaves prefix (VDict items))).
Proof.
  intros items prefix.
  exists (store_all [] (leaves prefix (VDict items))).
  split; [apply flatten_settings_leaves|].
  split; [apply NoDup_keys_store_all; constructor|].
  split; [|split].
  - intros path. rewrite In_keys_store_all. simpl. tauto.
  - intros path. rewrite get_store_all.
    now destruct (last_at _ path).
  - intros Hnd. now rewrite store_all_distinct.
Qed.

(** C5, amended, at [{"a": {"b": 1}, "a.b": 2}] and at
    [{"a": {"b": 1}, "c": 2}]. *)
Lemma flattened_paths_witness :
  (exists settings,
      flatten_settings
        (VDict [("a", VDict [("b", VInt 1)]); ("a.b", VInt 2)]) ""
      = Returns settings
      /\ PyDict.get settings "a.b" = Some (entry_of "a.b" (VInt 2)))
  /\ (exists settings,
         flatten_settings
           (VDict [("a", VDict [("b", VInt 1)]); ("c", VInt 2)]) ""
         = Returns settings
         /\ settings
            = [("a.b", entry_of "a.b" (VInt 1)); ("c", entry_of "c" (VInt 2))]).
Proof.
  split.
  - destruct (flattened_paths
                [("a", VDict [("b", VInt 1)]); ("a.b", VInt 2)] "")
      as [settings [Hr [_ [_ [Hg _]]]]].
    exists settings. split; [exact Hr | exact (Hg "a.b")].
  - destruct (flattened_paths
                [("a", VDict [("b", VInt 1)]); ("c", VInt 2)] "")
      as [settings [Hr [_ [_ [_ Hd]]]]].
    exists settings. split; [exact Hr|]. apply Hd.
    repeat constructor; simpl; intuition discriminate.
Defined.

(** ** Failure *)
















(** ** The store: [flatten_settings] depends on nothing but its arguments *)

Lemma length_assign h : forall a d, List.length (assign h a d) = List.length h.
Proof.
  induction h as [|d0 h IH]; intros [|a] d; simpl; try reflexivity.
  now rewrite IH.
Qed.

Lemma deref_assign_eq h : forall a d,
  a < List.length h -> deref (assign h a d) a = d.
Proof.
  unfold deref.
  induction h as [|d0 h IH]; intros [|a] d Ha; simpl in *; try lia.
  - reflexivity.
  - apply IH. lia.
Qed.

Lemma deref_assign_neq h : forall a b d,
  a <> b -> deref (assign h a d) b = deref h b.
Proof.
  unfold deref.
  induction h as [|d0 h IH]; intros [|a] [|b] d Hne; simpl; try reflexivity.
  - contradiction.
  - apply IH. congruence.
Qed.

Lemma flatten_loop_ref_store items :
  Forall (fun kv => is_structural (snd kv) = false \/ runs_as_pure (snd kv))
    items ->
  forall prefix a h,
    a < List.length h ->
    exists h',
      flatten_loop_ref flatten_settings_ref prefix items a h = Returns h'
      /\ List.length h <= List.length h'
      /\ deref h' a = store_all (deref h a) (walk_items leaves prefix items)
      /\ forall b, b < List.length h -> b <> a -> deref h' b = deref h b.
Proof.
  induction 1 as [|[key value] items Hv _ IH]; intros prefix a h Ha.
  - exists h. repeat split; auto.
  - cbn [flatten_loop_ref walk_items snd] in *.
    destruct (is_structural value) eqn:Es.
    + destruct Hv as [|Hv]; [discriminate|].
      destruct (Hv (full_key_of prefix key) h) as [h1 [Hr [Hlen [Hnew Hold]]]].
      rewrite Hr, Hnew, (Hold a Ha), update_store_all.
      set (h2 := assign h1 a _).
      assert (Hlen2 : List.length h2 = List.length h1)
        by apply length_assign.
      destruct (IH prefix a h2) as [h' [Hr' [Hlen' [Ha' Hb']]]]; [lia|].
      exists h'. split; [exact Hr'|]. split; [lia|]. split.
      * rewrite Ha'. unfold h2. rewrite deref_assign_eq by lia.
        now rewrite store_all_app.
      * intros b Hb Hne. rewrite Hb' by (trivial; lia).
        unfold h2. rewrite deref_assign_neq by congruence. now apply Hold.
    + set (h2 := assign h a _).
      assert (Hlen2 : List.length h2 = List.length h) by apply length_assign.
      destruct (IH prefix a h2) as [h' [Hr' [Hlen' [Ha' Hb']]]]; [lia|].
      exists h'. split; [exact Hr'|]. split; [lia|]. split.
      * rewrite Ha'. unfold h2. rewrite deref_assign_eq by lia.
        cbn [app]. now rewrite store_all_cons, add_setting_set.
      * intros b Hb Hne. rewrite Hb' by (trivial; lia).
        unfold h2. now rewrite deref_assign_neq by congruence.
Qed.

Lemma flatten_settings_ref_dict items :
  Forall (fun kv => is_structural (snd kv) = false \/ runs_as_pure (snd kv))
    items ->
  runs_as_pure (VDict items).
Proof.
  intros Hitems prefix h.
  cbn [flatten_settings_ref leaves]. unfold alloc.
  destruct (flatten_loop_ref_store items Hitems prefix
              (List.length h) (h ++ [[]])%list)
    as [h' [Hr [Hlen [Ha Hb]]]].
  { rewrite length_app. simpl. lia. }
  rewrite length_app in Hlen. simpl in Hlen.
  exists h'. rewrite Hr. split; [reflexivity|]. split; [lia|]. split.
  - rewrite Ha. f_equal. unfold deref. now rewrite nth_middle.
  - intros a Hlt. rewrite Hb.
    + unfold deref. now rewrite app_nth1.
    + rewrite length_app. simpl. lia.
    + lia.
Qed.

Lemma flatten_settings_ref_pure items : runs_as_pure (VDict items).
Proof.
  assert (H : forall v, is_structural v = false \/ runs_as_pure v).
  { induction v as [| | | | | |items' IH|] using value_rect_nested;
      try (left; reflexivity).
    right. now apply flatten_settings_ref_dict. }
  apply flatten_settings_ref_dict.
  apply Forall_forall. intros kv _. apply H.
Qed.

(** C7.  The result of [flatten_settings] is a function of the tree and
    the prefix alone: run in any two stores, two calls on the same
    arguments either both raise the same error or both return
    dictionaries with the same content, which is the value of the pure
    function; and a second call, run in the store the first one left,
    returns a new dictionary equal to the first one's and leaves the
    first one as it was. *)
Theorem flatten_settings_deterministic :
  (forall obj prefix h1 h2,
      match flatten_settings_ref obj prefix h1,
            flatten_settings_ref obj prefix h2 with
      | Returns (a1, h1'), Returns (a2, h2') =>
          deref h1' a1 = deref h2' a2
          /\ flatten_settings obj prefix = Returns (deref h1' a1)
      | Raises e1, Raises e2 =>
          e1 = e2 /\ flatten_settings obj prefix = Raises e1
      | _, _ => False
      end)
  /\ (forall obj prefix h,
         match flatten_settings_ref obj prefix h with
         | Returns (a1, h1) =>
             match flatten_settings_ref obj prefix h1 with
             | Returns (a2, h2) =>
                 a2 <> a1
                 /\ deref h2 a2 = deref h1 a1
                 /\ deref h2 a1 = deref h1 a1
             | Raises _ => False
             end
         | Raises e => forall h', flatten_settings_ref obj prefix h' = Raises e
         end).
Proof.
  split.
  - intros obj prefix h1 h2.
    destruct obj; try (split; reflexivity).
    destruct (flatten_settings_ref_pure items prefix h1) as [h1' [-> [_ [E1 _]]]].
    destruct (flatten_settings_ref_pure items prefix h2) as [h2' [-> [_ [E2 _]]]].
    rewrite E1, E2. split; [reflexivity | apply flatten_settings_leaves].
  - intros obj prefix h.
    destruct obj; try (intros h'; reflexivity).
    destruct (flatten_settings_ref_pure items prefix h)
      as [h1 [-> [Hlen [E1 _]]]].
    destruct (flatten_settings_ref_pure items prefix h1)
      as [h2 [-> [_ [E2 Hold]]]].
    split; [lia|]. split; [now rewrite E1, E2 | now apply Hold].
Qed.

(** ** Trailing commas *)

Lemma space_length_blank s : all_blank (space_length s) s = true.
Proof.
  assert (Hb : forall c, (128 <=? nat_of_ascii c)%nat = true ->
                         blank_byte c = true).
  { intros c H. unfold blank_byte. rewrite H. apply orb_true_r. }
  destruct s as [|c s]; [reflexivity|].
  unfold space_length.
  match goal with
  | |- context [if ?b then _ else _] => destruct b eqn:E1
  end.
  { cbn [all_blank]. unfold blank_byte.
    apply orb_true_iff in E1. rewrite !andb_true_iff, !Nat.leb_le in E1.
    rewrite andb_true_r, orb_true_iff, !Nat.leb_le. lia. }
  destruct s as [|d s]; [reflexivity|].
  match goal with
  | |- context [if ?b then _ else _] => destruct b eqn:E2
  end.
  { rewrite andb_true_iff, orb_true_iff, !Nat.eqb_eq in E2.
    cbn [all_blank]. rewrite !Hb by (apply Nat.leb_le; lia). reflexivity. }
  destruct s as [|e s]; [reflexivity|].
  repeat match goal with
         | |- context [if ?b then _ else _] =>
             let E := fresh "E" in
             destruct b eqn:E;
             [ rewrite ?andb_true_iff, ?orb_true_iff, ?andb_true_iff,
                 ?Nat.eqb_eq, ?Nat.leb_le in E;
               cbn [all_blank]; rewrite !Hb by (apply Nat.leb_le; lia);
               reflexivity | ]
         end.
  reflexivity.
Qed.

Lemma space_run_blank s : forall inside,
  all_blank inside s = true -> all_blank (space_run inside s) s = true.
Proof.
  induction s as [|c s IH]; intros inside H.
  - reflexivity.
  - cbn [space_run]. destruct inside as [|k].
    + pose proof (space_length_blank (String c s)) as Hl.
      destruct (space_length (String c s)) as [|k]; [reflexivity|].
      cbn [all_blank] in *. apply andb_prop in Hl. destruct Hl as [Hc Hk].
      rewrite Hc. now apply IH.
    + cbn [all_blank] in *. apply andb_prop in H. destruct H as [Hc Hk].
      rewrite Hc. now apply IH.
Qed.

Lemma all_blank_group n : forall s c,
  all_blank n s = true -> String.get n s = Some c -> is_closer c = true ->
  group (S n) s = true.
Proof.
  induction n as [|n IH]; intros [|d s] c Hb Hg Hc; try discriminate.
  - simpl in Hg. injection Hg as ->. exact Hc.
  - cbn [all_blank] in Hb. apply andb_prop in Hb. destruct Hb as [Hd Hb].
    simpl in Hg. change (group (S (S n)) (String d s))
      with (blank_byte d && group (S n) s).
    rewrite Hd. now apply IH with c.
Qed.

Lemma closer_ahead_group s n : closer_ahead s = Some n -> group n s = true.
Proof.
  unfold closer_ahead. destruct (String.get _ s) as [c|] eqn:Hg; [|discriminate].
  destruct (is_closer c) eqn:Hc; [|discriminate]. intros [= <-].
  apply all_blank_group with c; trivial. now apply space_run_blank.
Qed.

Module JsonFacts.
Import Json.

Ltac by_char c :=
  destruct c as [[|] [|] [|] [|] [|] [|] [|] [|]];
  vm_compute; intros; try discriminate; try reflexivity; auto.

Lemma step_without_comma st c :
  Ascii.eqb c "," = false -> step true st c = step false st c.
Proof.
  intros H. destruct st as [m stack]. destruct m; try reflexivity.
  - simpl. unfold after_value. now rewrite H.
  - simpl. unfold after_value. now rewrite H.
Qed.

Lemma closer_not_comma c : is_closer c = true -> Ascii.eqb c "," = false.
Proof. by_char c. Qed.

Lemma blank_not_comma c : blank_byte c = true -> Ascii.eqb c "," = false.
Proof. by_char c. Qed.

Lemma closer_ahead_ws c u :
  is_ws c = true -> closer_ahead (String c u) = None -> closer_ahead u = None.
Proof.
  intros Hc. unfold closer_ahead.
  assert (E : space_run 0 (String c u) = S (space_run 0 u)).
  { cbn [space_run].
    assert (El : space_length (String c u) = 1).
    { unfold space_length.
      match goal with
      | |- context [if ?b then _ else _] => destruct b eqn:E
      end; [reflexivity|]. exfalso.
      clear - Hc E. revert Hc E. by_char c. }
    now rewrite El. }
  rewrite E. simpl String.get.
  destruct (String.get _ u) as [d|]; [|reflexivity].
  destruct (is_closer d); [discriminate | reflexivity].
Qed.

Lemma closer_ahead_closer c u :
  is_closer c = true -> closer_ahead (String c u) <> None.
Proof.
  intros Hc. unfold closer_ahead.
  assert (E : space_run 0 (String c u) = 0).
  { cbn [space_run].
    assert (El : space_length (String c u) = 0).
    { unfold is_closer in Hc. apply orb_prop in Hc.
      destruct Hc as [Hc|Hc]; apply Ascii.eqb_eq in Hc; subst c;
        destruct u as [|d [|e u]]; reflexivity. }
    now rewrite El. }
  rewrite E. simpl. now rewrite Hc.
Qed.

(** A comma is taken after a value, or inside a string. *)
Lemma step_comma m stack st1 :
  step true (m, stack) "," = Some st1 ->
  (ended m = true
   /\ reopened (fst st1) stack = true
   /\ snd st1 = stack
   /\ step false (m, stack) "," = Some (strict_of (fst st1), stack))
  \/ (in_str (m, stack) = true
      /\ st1 = (m, stack)
      /\ step false (m, stack) "," = Some (m, stack)).
Proof.
  destruct m as [| | | | | |k s|n|w pos]; try discriminate;
    try (destruct stack as [|[] stack]; discriminate).
  - destruct stack as [|[] stack]; try discriminate;
      intros [= <-]; left; repeat split.
  - destruct s as [| |more]; try discriminate.
    intros [= <-]. right. repeat split.
  - destruct n; try discriminate;
      (destruct stack as [|[] stack]; try discriminate;
       intros [= <-]; left; repeat split).
  - simpl. destruct w;
      destruct pos as [|[|[|[|[|pos]]]]]; discriminate.
Qed.

(** After a comma that stays, strict JSON reads what follows as the
    dialect does. *)
Lemma step_reopened m stack c u st1 :
  reopened m stack = true ->
  closer_ahead (String c u) = None ->
  step true (m, stack) c = Some st1 ->
  Ascii.eqb c "," = false
  /\ ((is_ws c = true /\ st1 = (m, stack)
       /\ step false (strict_of m, stack) c = Some (strict_of m, stack))
      \/ (is_ws c = false /\ step false (strict_of m, stack) c = Some st1)).
Proof.
  intros Hm Ha Hs.
  assert (Hc : is_closer c = false).
  { destruct (is_closer c) eqn:E; [|reflexivity].
    now apply closer_ahead_closer with (u := u) in E. }
  clear Ha.
  destruct m; try discriminate; destruct stack as [|[] stack]; try discriminate;
    clear Hm; revert Hc Hs; by_char c;
    match goal with
    | H : Some _ = Some _ |- _ => injection H as <-
    end; auto.
Qed.

(** The bracket that closes the group. *)
Lemma step_dropped_closer m1 m2 stack c st1 :
  reopened m1 stack = true -> ended m2 = true -> is_closer c = true ->
  step true (m1, stack) c = Some st1 ->
  step false (m2, stack) c = Some st1.
Proof.
  intros Hm1 Hm2 Hc Hs.
  destruct m1; try discriminate; destruct stack as [|[] stack]; try discriminate;
    clear Hm1;
    (destruct m2 as [| | | | | | |n|]; try discriminate;
     [|destruct n; try discriminate]);
    clear Hm2; revert Hc Hs; by_char c.
Qed.

(** A blank byte of the group. *)
Lemma step_dropped_blank m1 m2 stack c st1 :
  reopened m1 stack = true -> ended m2 = true -> blank_byte c = true ->
  step true (m1, stack) c = Some st1 ->
  st1 = (m1, stack) /\ step false (m2, stack) c = Some (After, stack).
Proof.
  intros Hm1 Hm2 Hc Hs.
  destruct m1; try discriminate; destruct stack as [|[] stack]; try discriminate;
    clear Hm1;
    (destruct m2 as [| | | | | | |n|]; try discriminate;
     [|destruct n; try discriminate]);
    clear Hm2; revert Hc Hs; by_char c;
    match goal with
    | H : Some _ = Some _ |- _ => injection H as <-
    end; auto.
Qed.

Lemma run_cons trailing st c u st' :
  run trailing st (String c u) = Some st' ->
  exists st1, step trailing st c = Some st1 /\ run trailing st1 u = Some st'.
Proof.
  simpl. destruct (step trailing st c) as [st1|]; [|discriminate].
  intros H. now exists st1.
Qed.

Lemma group_next k c u :
  group (S (S k)) (String c u) = true ->
  blank_byte c = true /\ group (S k) u = true.
Proof.
  change (group (S (S k)) (String c u)) with (blank_byte c && group (S k) u).
  apply andb_prop.
Qed.

Lemma group_not_comma k c u :
  group (S k) (String c u) = true -> Ascii.eqb c "," = false.
Proof.
  destruct k as [|k]; intros H.
  - now apply closer_not_comma.
  - apply group_next in H. now apply blank_not_comma.
Qed.

Lemma group_tail k c u : group (S k) (String c u) = true -> group k u = true.
Proof.
  destruct k as [|k]; intros H; [reflexivity|].
  now apply group_next in H.
Qed.

(** The dialect with trailing commas reads a text as strict JSON reads
    the text without them: in step, or behind a comma that stays, or
    behind a comma that was dropped. *)
Lemma sub_trailing_simulates u :
  (forall k st stf,
      group k u = true ->
      run true st u = Some stf -> accepting stf = true ->
      exists stf',
        run false st (sub_trailing k u) = Some stf' /\ accepting stf' = true)
  /\ (forall m stack stf,
         reopened m stack = true -> closer_ahead u = None ->
         run true (m, stack) u = Some stf -> accepting stf = true ->
         exists stf',
           run false (strict_of m, stack) (sub_trailing 0 u) = Some stf'
           /\ accepting stf' = true)
  /\ (forall k m1 m2 stack stf,
         reopened m1 stack = true -> ended m2 = true ->
         group (S k) u = true ->
         run true (m1, stack) u = Some stf -> accepting stf = true ->
         exists stf',
           run false (m2, stack) (sub_trailing (S k) u) = Some stf'
           /\ accepting stf' = true).
Proof.
  induction u as [|c u [IHsame [IHopen IHdrop]]].
  - split; [|split].
    + intros k st stf _ [= <-] Ha. exists st. destruct k; now split.
    + intros m stack stf Hm _ [= <-] Ha.
      destruct m; try discriminate; destruct stack as [|[] ?]; discriminate.
    + intros k m1 m2 stack stf _ _ Hg. destruct k; discriminate.
  - split; [|split].
    + intros k st stf Hg Hr Ha.
      apply run_cons in Hr. destruct Hr as [st1 [Hs Hr]].
      destruct k as [|k].
      * cbn [sub_trailing]. destruct (Ascii.eqb c ",") eqn:Ec.
        -- apply Ascii.eqb_eq in Ec. subst c. destruct st as [m stack].
           apply step_comma in Hs.
           destruct Hs as [[He [Hre [Hst Hs2]]]|[_ [-> Hs2]]].
           ++ destruct st1 as [m1 stack1]. cbn [fst snd] in Hre, Hst, Hs2.
              subst stack1.
              destruct (closer_ahead u) as [n|] eqn:En in |- *.
              ** destruct n as [|n];
                   [unfold closer_ahead in En;
                    destruct (String.get _ u) as [d|]; [|discriminate];
                    destruct (is_closer d); discriminate|].
                 apply (IHdrop n m1 m stack stf); trivial.
                 now apply closer_ahead_group.
              ** destruct (IHopen m1 stack stf Hre En Hr Ha) as [stf' [Hr' Ha']].
                 exists stf'. split; [|exact Ha'].
                 cbn [run]. now rewrite Hs2.
           ++ destruct (closer_ahead u) as [n|] eqn:En in |- *.
              ** apply (IHsame n (m, stack) stf); trivial.
                 now apply closer_ahead_group.
              ** destruct (IHsame 0 (m, stack) stf eq_refl Hr Ha)
                   as [stf' [Hr' Ha']].
                 exists stf'. split; [|exact Ha'].
                 cbn [run]. now rewrite Hs2.
        -- destruct (IHsame 0 st1 stf eq_refl Hr Ha) as [stf' [Hr' Ha']].
           exists stf'. split; [|exact Ha'].
           cbn [run]. now rewrite <- step_without_comma, Hs.
      * cbn [sub_trailing].
        destruct (IHsame k st1 stf (group_tail _ _ _ Hg) Hr Ha)
          as [stf' [Hr' Ha']].
        exists stf'. split; [|exact Ha'].
        cbn [run].
        now rewrite <- step_without_comma, Hs by (now apply group_not_comma in Hg).
    + intros m stack stf Hm Hc Hr Ha.
      apply run_cons in Hr. destruct Hr as [st1 [Hs Hr]].
      destruct (step_reopened _ _ _ _ _ Hm Hc Hs)
        as [Ec [[Hw [-> Hs2]]|[Hw Hs2]]];
        cbn [sub_trailing]; rewrite Ec; cbn [run]; rewrite Hs2.
      * apply (IHopen m stack stf); trivial. now apply closer_ahead_ws with c.
      * now apply (IHsame 0 st1 stf).
    + intros k m1 m2 stack stf Hm1 Hm2 Hg Hr Ha.
      apply run_cons in Hr. destruct Hr as [st1 [Hs Hr]].
      cbn [sub_trailing run]. destruct k as [|k].
      * rewrite (step_dropped_closer _ _ _ _ _ Hm1 Hm2 Hg Hs).
        now apply (IHsame 0 st1 stf).
      * apply group_next in Hg. destruct Hg as [Hb Hg].
        destruct (step_dropped_blank _ _ _ _ _ Hm1 Hm2 Hb Hs) as [-> Hs2].
        rewrite Hs2. now apply (IHdrop k m1 After stack stf).
Qed.

(** What the dialect with trailing commas takes is strict JSON once the
    substitution has been made. *)
Lemma remove_trailing_commas_strict u :
  accepts true u = true -> accepts false (remove_trailing_commas u) = true.
Proof.
  unfold accepts, remove_trailing_commas.
  destruct (run true init u) as [stf|] eqn:Hr; [|discriminate]. intros Ha.
  destruct (proj1 (sub_trailing_simulates u) 0 init stf eq_refl Hr Ha)
    as [stf' [-> Ha']].
  exact Ha'.
Qed.

End JsonFacts.

(** ** Comments *)

Module CommentFacts.
Import Json.
Import JsonFacts.

Lemma spelling_letter w pos d :
  String.get pos (spelling w) = Some d -> (97 <=? nat_of_ascii d)%nat = true.
Proof.
  destruct w; destruct pos as [|[|[|[|[|pos]]]]]; simpl;
    try discriminate; intros [= <-]; reflexivity.
Qed.

Lemma letter_plain d :
  (97 <=? nat_of_ascii d)%nat = true ->
  is_ws d = false /\ Ascii.eqb d quote = false /\ Ascii.eqb d "/" = false.
Proof. by_char d. Qed.

Lemma is_ws_cases c :
  is_ws c = true ->
  c = " "%char \/ c = "009"%char \/ c = "010"%char \/ c = "013"%char.
Proof.
  unfold is_ws. rewrite !orb_true_iff, !Ascii.eqb_eq. tauto.
Qed.

Lemma outside_scan_of st : outside (scan_of st) = negb (in_str st).
Proof. destruct st as [[| | | | | |k [| |more]| |] stack]; reflexivity. Qed.

(** The scanner follows the recogniser. *)
Lemma scan_of_step trailing st c st' :
  step trailing st c = Some st' -> scan_of st' = scan_step (scan_of st) c.
Proof.
  destruct st as [m stack].
  destruct m as [| | | | | |k s|n|w pos].
  1-6: destruct trailing; destruct stack as [|[] stack];
         revert st'; by_char c;
         match goal with
         | H : Some _ = Some _ |- _ => injection H as <-; reflexivity
         end.
  - destruct trailing; destruct k; destruct s as [| |[|more]];
      revert st'; by_char c;
      match goal with
      | H : Some _ = Some _ |- _ => injection H as <-; reflexivity
      end.
  - destruct trailing; destruct n; destruct stack as [|[] stack];
      revert st'; by_char c;
      match goal with
      | H : Some _ = Some _ |- _ => injection H as <-; reflexivity
      end.
  - cbn [step]. destruct (String.get pos (spelling w)) as [d|] eqn:Eg;
      [|discriminate].
    apply spelling_letter, letter_plain in Eg. destruct Eg as [_ [Hq _]].
    destruct (Ascii.eqb c d) eqn:Ec; [|discriminate].
    apply Ascii.eqb_eq in Ec. subst d. intros [= <-].
    cbn [scan_of scan_step]. rewrite Hq.
    match goal with
    | |- context [if ?b then _ else _] => destruct b
    end; reflexivity.
Qed.

(** A white-space character outside strings: the state it leads to is
    outside strings too, every white-space character leads to it, and it
    is an end of the text only if the state before was. *)
Lemma step_ws trailing st c st' :
  is_ws c = true -> in_str st = false ->
  step trailing st c = Some st' ->
  in_str st' = false
  /\ (forall c', is_ws c' = true -> step trailing st c' = Some st')
  /\ (accepting st' = true -> accepting st = true).
Proof.
  intros Hc Hs. destruct st as [m stack].
  destruct m as [| | | | | |k s|n|w pos]; try discriminate.
  1-6: apply is_ws_cases in Hc;
         destruct Hc as [-> | [-> | [-> | ->]]]; intros [= <-];
         (split; [reflexivity|]);
         (split; [|trivial]);
         intros c' Hc'; apply is_ws_cases in Hc';
         destruct Hc' as [-> | [-> | [-> | ->]]]; reflexivity.
  - apply is_ws_cases in Hc.
    destruct n; destruct Hc as [-> | [-> | [-> | ->]]];
      try discriminate; intros [= <-];
      (split; [reflexivity|]);
      (split; [|destruct stack; trivial]);
      intros c' Hc'; apply is_ws_cases in Hc';
      destruct Hc' as [-> | [-> | [-> | ->]]]; reflexivity.
  - cbn [step]. destruct (String.get pos (spelling w)) as [d|] eqn:Eg;
      [|discriminate].
    apply spelling_letter, letter_plain in Eg. destruct Eg as [Hw _].
    destruct (Ascii.eqb c d) eqn:Ec; [|discriminate].
    apply Ascii.eqb_eq in Ec. subst d. congruence.
Qed.

Lemma step_newline trailing st st' :
  step trailing st newline = Some st' -> in_str st' = false.
Proof.
  destruct (in_str st) eqn:Es.
  - destruct st as [[| | | | | |k [| |more]| |] stack]; discriminate.
  - intros H. now apply (step_ws trailing st newline st').
Qed.

Lemma run_app trailing a : forall st b,
  run trailing st (a ++ b)
  = match run trailing st a with
    | Some st1 => run trailing st1 b
    | None => None
    end.
Proof.
  induction a as [|c a IH]; intros st b; simpl; [reflexivity|].
  destruct (step trailing st c); [apply IH | reflexivity].
Qed.

Lemma run_commented_app trailing a : forall pst b,
  run_commented trailing pst (a ++ b)
  = match run_commented trailing pst a with
    | Some pst1 => run_commented trailing pst1 b
    | None => None
    end.
Proof.
  induction a as [|c a IH]; intros pst b; simpl; [reflexivity|].
  destruct (step_commented trailing pst c); [apply IH | reflexivity].
Qed.

(** A comment runs to the end of the line. *)
Lemma run_in_comment trailing st b :
  free_of newline b = true ->
  run_commented trailing (InComment, st) b = Some (InComment, st).
Proof.
  induction b as [|c b IH]; [reflexivity|].
  cbn [free_of run_commented step_commented]. intros H.
  apply andb_prop in H. destruct H as [Hc Hb].
  apply negb_true_iff in Hc. rewrite Hc. now apply IH.
Qed.

Lemma prefix_slashes c rest :
  String.prefix "//" (String c rest)
  = Ascii.eqb c "/"
    && match rest with
       | String d _ => Ascii.eqb d "/"
       | EmptyString => false
       end.
Proof.
  cbn [String.prefix]. destruct (ascii_dec "/" c) as [<-|Hne].
  - rewrite Ascii.eqb_refl. destruct rest as [|d rest]; [reflexivity|].
    cbn [String.prefix andb]. destruct (ascii_dec "/" d) as [<-|Hne].
    + rewrite Ascii.eqb_refl. now destruct rest.
    + symmetry. apply Ascii.eqb_neq. congruence.
  - symmetry. apply andb_false_intro1. apply Ascii.eqb_neq. congruence.
Qed.

Lemma comment_from_cons sc c rest :
  comment_from sc (String c rest)
  = if outside sc && String.prefix "//" (String c rest) then Some 0
    else option_map S (comment_from (scan_step sc c) rest).
Proof. reflexivity. Qed.

Lemma comment_from_contains l : forall sc n,
  comment_from sc l = Some n -> PyStr.contains "//" l = true.
Proof.
  induction l as [|c l IH]; intros sc n; [discriminate|].
  cbn [comment_from PyStr.contains].
  destruct (outside sc && String.prefix "//" (String c l)) eqn:E.
  - apply andb_prop in E. destruct E as [_ ->]. reflexivity.
  - destruct (comment_from (scan_step sc c) l) as [n'|] eqn:En; [|discriminate].
    intros _. rewrite (IH _ _ En). apply orb_true_r.
Qed.

(** The comment, once found, splits the line. *)
Lemma comment_from_split l : forall sc n,
  comment_from sc l = Some n ->
  exists a b, l = a ++ "//" ++ b /\ String.length a = n.
Proof.
  induction l as [|c l IH]; intros sc n; [discriminate|].
  cbn [comment_from].
  destruct (outside sc && String.prefix "//" (String c l)) eqn:E.
  - intros [= <-]. apply andb_prop in E. destruct E as [_ E].
    apply prefix_iff in E. destruct E as [b ->]. now exists "", b.
  - destruct (comment_from (scan_step sc c) l) as [n'|] eqn:En; [|discriminate].
    intros [= <-]. destruct (IH _ _ En) as [a [b [-> <-]]].
    now exists (String c a), b.
Qed.

(** A line without comment is read as if comments did not exist. *)
Lemma run_without_comment l : forall st ph st',
  comment_from (scan_of st) l = None ->
  run_commented true (Code, st) l = Some (ph, st') ->
  ph = SlashSeen \/ (ph = Code /\ run true st l = Some st').
Proof.
  induction l as [|c l IH]; intros st ph st' Hc Hr.
  - injection Hr as <- <-. now right.
  - rewrite comment_from_cons in Hc.
    cbn [run_commented step_commented] in Hr.
    rewrite outside_scan_of, prefix_slashes in Hc.
    destruct (comment_from (scan_step (scan_of st) c) l) as [n|] eqn:En;
      [destruct (_ && _); discriminate|].
    destruct (negb (in_str st) && Ascii.eqb c "/") eqn:E.
    + apply andb_prop in E. destruct E as [E1 E2]. rewrite E1, E2 in Hc.
      destruct (step true st " ") as [st1|]; [|discriminate].
      destruct l as [|d l].
      * injection Hr as <- <-. now left.
      * cbn [run_commented step_commented] in Hr. simpl in Hc.
        destruct (Ascii.eqb d "/"); discriminate.
    + destruct (step true st c) as [st1|] eqn:Es; [|discriminate].
      rewrite <- (scan_of_step _ _ _ _ Es) in En.
      destruct (IH st1 ph st' En Hr) as [->|[-> Hr']]; [now left|].
      right. split; [reflexivity|]. cbn [run]. now rewrite Es.
Qed.

Lemma run_commented_slashes st b :
  in_str st = false ->
  run_commented true (Code, st) (String "/" (String "/" b))
  = match step true st " " with
    | Some st1 => run_commented true (InComment, st1) b
    | None => None
    end.
Proof.
  intros Hs. cbn [run_commented step_commented]. rewrite Hs.
  change (negb false && Ascii.eqb "/" "/") with true. cbv iota.
  destruct (step true st " "); reflexivity.
Qed.

(** A line with a comment is read up to the comment, which then counts
    as a space. *)
Lemma run_with_comment a : forall st b ph st',
  comment_from (scan_of st) (a ++ "//" ++ b) = Some (String.length a) ->
  free_of newline b = true ->
  run_commented true (Code, st) (a ++ "//" ++ b) = Some (ph, st') ->
  ph = InComment
  /\ exists st_a,
       run true st a = Some st_a
       /\ in_str st_a = false
       /\ step true st_a " " = Some st'.
Proof.
  induction a as [|c a IH]; intros st b ph st' Hc Hb Hr.
  - change ("" ++ "//" ++ b) with (String "/" (String "/" b)) in *.
    rewrite comment_from_cons, outside_scan_of in Hc.
    destruct (negb (in_str st)) eqn:Es;
      [|cbn [andb] in Hc;
        match type of Hc with
        | option_map S ?x = _ => destruct x; discriminate
        end].
    apply negb_true_iff in Es.
    rewrite (run_commented_slashes st b Es) in Hr.
    destruct (step true st " ") as [st1|] eqn:Est; [|discriminate].
    rewrite run_in_comment in Hr by assumption.
    injection Hr as <- <-. split; [reflexivity|].
    exists st. now repeat split.
  - change (String c a ++ "//" ++ b) with (String c (a ++ "//" ++ b)) in *.
    rewrite comment_from_cons in Hc. cbn [String.length] in Hc.
    rewrite outside_scan_of, prefix_slashes in Hc.
    cbn [run_commented step_commented] in Hr.
    destruct (comment_from (scan_step (scan_of st) c) (a ++ "//" ++ b))
      as [n|] eqn:En; [|destruct (_ && _); discriminate].
    destruct (negb (in_str st) && Ascii.eqb c "/") eqn:E.
    + apply andb_prop in E. destruct E as [E1 E2]. rewrite E1, E2 in Hc.
      destruct (step true st " ") as [st1|]; [|discriminate].
      destruct a as [|d a].
      * simpl in Hc. discriminate.
      * change (String d a ++ "//" ++ b) with (String d (a ++ "//" ++ b)) in *.
        cbn [run_commented step_commented] in Hr. simpl in Hc.
        destruct (Ascii.eqb d "/"); discriminate.
    + destruct (step true st c) as [st1|] eqn:Es; [|discriminate].
      rewrite <- (scan_of_step _ _ _ _ Es) in En.
      assert (Hn : n = String.length a).
      { destruct (negb (in_str st) && _); simpl in Hc; congruence. }
      subst n.
      destruct (IH st1 b ph st' En Hb Hr) as [-> [st_a [Ha [Hs Hst]]]].
      split; [reflexivity|]. exists st_a. cbn [run]. rewrite Es. now repeat split.
Qed.

Lemma substring_prefix a : forall r,
  String.substring 0 (String.length a) (a ++ r) = a.
Proof.
  induction a as [|c a IH]; intros r; simpl.
  - now destruct r.
  - now rewrite IH.
Qed.

Lemma slice_to_prefix a r :
  PyStr.slice_to (a ++ r) (Z.of_nat (String.length a)) = a.
Proof.
  unfold PyStr.slice_to.
  destruct (Z.ltb_spec (Z.of_nat (String.length a)) 0) as [H|_]; [lia|].
  rewrite append_length, Z.min_l by lia.
  rewrite Nat2Z.id. apply substring_prefix.
Qed.

(** *** Lines *)

Lemma split_nonempty sep s : PyStr.split sep s <> [].
Proof.
  destruct s as [|c s]; simpl; [discriminate|].
  destruct (Ascii.eqb c sep); [discriminate|].
  destruct (PyStr.split sep s); discriminate.
Qed.

Lemma split_free sep s :
  Forall (fun l => free_of sep l = true) (PyStr.split sep s).
Proof.
  induction s as [|c s IH]; simpl.
  - now repeat constructor.
  - destruct (Ascii.eqb c sep) eqn:E.
    + now constructor.
    + destruct (PyStr.split sep s) as [|piece pieces].
      * repeat constructor. simpl. now rewrite E.
      * inversion IH; subst. constructor; [|assumption].
        simpl. now rewrite E.
Qed.

Lemma join_cons sep piece piece' pieces :
  PyStr.join sep (piece :: piece' :: pieces)
  = piece ++ sep ++ PyStr.join sep (piece' :: pieces).
Proof. reflexivity. Qed.

Lemma join_split sep s :
  PyStr.join (String sep "") (PyStr.split sep s) = s.
Proof.
  induction s as [|c s IH]; [reflexivity|].
  pose proof (split_nonempty sep s) as Hne.
  cbn [PyStr.split]. destruct (Ascii.eqb c sep) eqn:E.
  - apply Ascii.eqb_eq in E. subst c.
    destruct (PyStr.split sep s) as [|piece pieces]; [contradiction|].
    rewrite join_cons, IH. reflexivity.
  - destruct (PyStr.split sep s) as [|piece pieces]; [contradiction|].
    destruct pieces as [|piece' pieces].
    + simpl in *. now rewrite IH.
    + rewrite join_cons in IH. rewrite join_cons.
      cbn [append] in *. now rewrite IH.
Qed.

(** One line, read with comments and read after the loop has cleaned
    it: the loop leaves the line as it is, or cuts the comment off. *)
Lemma run_clean_line l st ph st1 :
  line_ok l = true -> free_of newline l = true -> in_str st = false ->
  run_commented true (Code, st) l = Some (ph, st1) ->
  ph = SlashSeen
  \/ exists st_a,
       run true st (clean_line l) = Some st_a
       /\ ((ph = Code /\ st1 = st_a)
           \/ (ph = InComment /\ in_str st_a = false
               /\ step true st_a " " = Some st1)).
Proof.
  intros Hok Hfree Hs Hr.
  assert (Hsc : scan_of st = Outside).
  { pose proof (outside_scan_of st) as H. rewrite Hs in H.
    now destruct (scan_of st). }
  assert (Hnone : comment_start l = None -> clean_line l = l ->
                  ph = SlashSeen
                  \/ exists st_a,
                       run true st (clean_line l) = Some st_a
                       /\ ((ph = Code /\ st1 = st_a)
                           \/ (ph = InComment /\ in_str st_a = false
                               /\ step true st_a " " = Some st1))).
  { intros Hc ->. unfold comment_start in Hc. rewrite <- Hsc in Hc.
    destruct (run_without_comment l st ph st1 Hc Hr) as [->|[-> Hr']];
      [now left|].
    right. exists st1. split; [exact Hr'|]. now left. }
  unfold line_ok in Hok. unfold clean_line in *.
  destruct (PyStr.contains "//" l) eqn:E.
  - destruct (PyStr.contains "http://" l || PyStr.contains "https://" l).
    + destruct (comment_start l) eqn:Ec; [discriminate|]. now apply Hnone.
    + destruct (comment_start l) as [n|] eqn:Ec; [|discriminate].
      apply Z.eqb_eq in Hok. rewrite <- Hok.
      destruct (comment_from_split _ _ _ Ec) as [a [b [-> <-]]].
      rewrite slice_to_prefix.
      unfold comment_start in Ec. rewrite <- Hsc in Ec.
      assert (Hb : free_of newline b = true).
      { clear - Hfree. induction a as [|c a IH]; simpl in Hfree.
        - exact Hfree.
        - apply IH. now apply andb_prop in Hfree. }
      destruct (run_with_comment a st b ph st1 Ec Hb Hr)
        as [-> [st_a [Ha [Hin Hst]]]].
      right. exists st_a. split; [exact Ha|]. now right.
  - destruct (comment_start l) as [n|] eqn:Ec.
    + apply comment_from_contains in Ec. congruence.
    + now apply Hnone.
Qed.

(** All the lines: what the dialect takes, the dialect without comments
    takes once the loop has cleaned the lines. *)
Lemma run_clean_lines lines : forall st ph stf,
  lines <> [] ->
  Forall (fun l => free_of newline l = true) lines ->
  forallb line_ok lines = true ->
  in_str st = false ->
  run_commented true (Code, st) (PyStr.join (String newline "") lines)
  = Some (ph, stf) ->
  ph <> SlashSeen -> accepting stf = true ->
  exists st',
    run true st (PyStr.join (String newline "") (map clean_line lines))
    = Some st'
    /\ accepting st' = true.
Proof.
  induction lines as [|l lines IH]; intros st ph stf Hne Hfree Hok Hs Hr Hph Ha;
    [contradiction|].
  inversion Hfree as [|? ? Hl Hfree']; subst.
  cbn [forallb] in Hok. apply andb_prop in Hok. destruct Hok as [Hokl Hok].
  destruct lines as [|l2 lines].
  - cbn [PyStr.join map] in *.
    destruct (run_clean_line l st ph stf Hokl Hl Hs Hr)
      as [->|[st_a [Hra [[_ ->]|[_ [Hin Hst]]]]]]; [contradiction| |].
    + now exists st_a.
    + exists st_a. split; [exact Hra|].
      now apply (step_ws true st_a " " stf).
  - cbn [map]. rewrite join_cons in *.
    rewrite run_commented_app in Hr.
    destruct (run_commented true (Code, st) l) as [[ph1 st1]|] eqn:Hr1;
      [|discriminate].
    rewrite run_app.
    change (String newline "" ++ ?x) with (String newline x) in *.
    cbn [run_commented] in Hr. cbn [run].
    destruct (run_clean_line l st ph1 st1 Hokl Hl Hs Hr1)
      as [->|[st_a [-> [[-> ->]|[-> [Hin Hst]]]]]].
    + discriminate.
    + cbn [step_commented] in Hr.
      replace (negb (in_str st_a) && Ascii.eqb newline "/") with false in Hr
        by (now destruct (in_str st_a)).
      destruct (step true st_a newline) as [st2|] eqn:Es; [|discriminate].
      apply (IH st2 ph stf); trivial; [discriminate|].
      now apply step_newline in Es.
    + cbn [step_commented] in Hr. rewrite Ascii.eqb_refl in Hr.
      destruct (step_ws true st_a " " st1 eq_refl Hin Hst) as [Hin1 [Hall _]].
      rewrite (Hall newline eq_refl).
      apply (IH st1 ph stf); trivial. discriminate.
Qed.

Lemma strip_comments_valid content :
  dialect_valid content = true -> lines_ok content = true ->
  accepts true (strip_comments content) = true.
Proof.
  unfold dialect_valid, lines_ok, strip_comments, line_feed, accepts.
  intros Hd Hok.
  destruct (run_commented true (Code, init) content) as [[ph stf]|] eqn:Hr;
    [|discriminate].
  rewrite <- (join_split newline content) in Hr.
  destruct (run_clean_lines (PyStr.split newline content) init ph stf)
    as [st' [-> Ha]]; trivial.
  - apply split_nonempty.
  - apply split_free.
  - intros ->. discriminate.
  - now destruct ph.
Qed.

End CommentFacts.

(** ** Preprocessing *)

(** C9, as stated, fails: [{"a": "b//c"}] is strict JSON, hence a text of
    the dialect, and the loop cuts its line inside the string. *)
Lemma preprocess_as_stated_fails :
  ~ (forall content,
        dialect_valid content = true ->
        json_valid (preprocess content) = true).
Proof.
  intros H. specialize (H ("{" ++ quoted "a" ++ ": " ++ quoted "b//c" ++ "}") eq_refl). discriminate H.
Qed.

(** C9, amended.  A text of the dialect in which every line containing
    [//] either contains neither [http://] nor [https://] and has its
    first [//] outside string literals, or contains one of them and has
    no comment, is turned into a text that parses as strict JSON. *)
Theorem preprocess_valid :
  forall content,
    dialect_valid content = true ->
    lines_ok content = true ->
    json_valid (preprocess content) = true.
Proof.
  intros content Hd Hok. unfold json_valid, preprocess.
  apply JsonFacts.remove_trailing_commas_strict.
  now apply CommentFacts.strip_comments_valid.
Qed.

(** C9, amended, at a text with a comment on a line of its own, a comment
    at the end of a line, two trailing commas and a URL. *)
Lemma preprocess_valid_witness :
  json_valid
    (preprocess
       ("{" ++ line_feed ++ "  // fonts" ++ line_feed
        ++ "  " ++ quoted "sizes" ++ ": [1, 2, ], // two" ++ line_feed
        ++ "  " ++ quoted "docs" ++ ": " ++ quoted "https://zed.dev/docs"
        ++ "," ++ line_feed
        ++ "}" ++ line_feed))
  = true.
Proof.
  apply preprocess_valid; reflexivity.
Defined.

(** ** Order, labels and prefixes of the flattened mapping *)

Lemma keys_set_mem {V : Type} (d : dict V) k v :
  PyDict.keys (PyDict.set d k v)
  = if mem k (PyDict.keys d) then PyDict.keys d
    else (PyDict.keys d ++ [k])%list.
Proof.
  destruct (mem k (PyDict.keys d)) eqn:E.
  - apply mem_In in E. now apply PyDictFacts.keys_set_present.
  - apply PyDictFacts.keys_set_absent. intros Hin.
    apply mem_In in Hin. congruence.
Qed.

Lemma keys_store_all ls : forall settings,
  PyDict.keys (store_all settings ls)
  = first_seen_from (PyDict.keys settings) (map fst ls).
Proof.
  induction ls as [|[k v] ls IH]; intros settings; [reflexivity|].
  rewrite store_all_cons, IH, keys_set_mem. reflexivity.
Qed.

(** X1.  The keys of the flattened mapping stand in the order in which
    the traversal first meets their paths. *)
Theorem flattened_order :
  forall items prefix,
    exists settings,
      flatten_settings (VDict items) prefix = Returns settings
      /\ PyDict.keys settings
         = first_seen (map fst (leaves prefix (VDict items))).
Proof.
  intros items prefix. eexists. split; [apply flatten_settings_leaves|].
  apply keys_store_all.
Qed.

Lemma first_match_label {K : Type} (test : K -> bool) rules otherwise :
  In (first_match test rules otherwise) (map snd rules ++ [otherwise])%list.
Proof.
  induction rules as [|[alternatives label] rules IH]; simpl.
  - now left.
  - destruct (existsb test alternatives); [now left | now right].
Qed.

(** X2.  Every entry of the flattened mapping is named by its key, has
    one of the five type labels and one of the eleven category labels. *)
Theorem entry_labels :
  forall obj prefix settings path e,
    flatten_settings obj prefix = Returns settings ->
    PyDict.get settings path = Some e ->
    name e = path
    /\ In (type e) type_labels
    /\ In (category e) category_labels.
Proof.
  intros obj prefix settings path e Hr Hg.
  destruct (flatten_settings_entry _ _ _ _ _ Hr Hg) as [v [_ ->]].
  split; [reflexivity|]. split.
  - cbn [type entry_of]. destruct v; simpl; tauto.
  - cbn [category entry_of]. rewrite categorize_first_match.
    apply first_match_label.
Qed.

(** X2 at [{"vim_mode": false}]. *)
Lemma entry_labels_witness :
  In "boolean" type_labels /\ In "keybindings" category_labels.
Proof.
  exact (proj2 (entry_labels (VDict [("vim_mode", VBool false)]) ""
                  _ "vim_mode" _ eq_refl eq_refl)).
Defined.

(** X3.  Under a prefix that is not empty, every key of the flattened
    mapping is the prefix, a dot and a path. *)
Theorem flattened_below_prefix :
  forall obj prefix settings path,
    prefix <> "" ->
    flatten_settings obj prefix = Returns settings ->
    In path (PyDict.keys settings) ->
    exists suffix, path = prefix ++ "." ++ suffix.
Proof.
  intros obj prefix settings path Hp Hr Hin.
  destruct obj; try discriminate.
  rewrite flatten_settings_leaves in Hr. injection Hr as <-.
  apply In_keys_store_all in Hin. destruct Hin as [[]|Hin].
  apply in_map_iff in Hin. destruct Hin as [[p w] [E Hin]].
  simpl in E. subst p.
  exact (leaves_below (VDict items) prefix Hp path w Hin).
Qed.

(** X3 at [{"font_size": 14}] under the prefix [editor]. *)
Lemma flattened_below_prefix_witness :
  exists suffix, "editor.font_size" = "editor" ++ "." ++ suffix.
Proof.
  apply (flattened_below_prefix (VDict [("font_size", VInt 14)]) "editor"
           [("editor.font_size", entry_of "editor.font_size" (VInt 14))]).
  - discriminate.
  - reflexivity.
  - now left.
Defined.

(** X4.  A structural mapping under the empty key, wherever it stands at
    the top level, gives the entries it would give as a root itself: an
    empty prefix adds no dot, so the empty key leaves no trace in the
    paths.  The result is that of the items before it, updated with that
    of the mapping and then with that of the items after it. *)
Theorem empty_key_transparent :
  forall before items after,
    is_structural (VDict items) = true ->
    exists settings1 settings2 settings3,
      flatten_settings (VDict before) "" = Returns settings1
      /\ flatten_settings (VDict items) "" = Returns settings2
      /\ flatten_settings (VDict after) "" = Returns settings3
      /\ flatten_settings
           (VDict (before ++ ("", VDict items) :: after)%list) ""
         = Returns (PyDict.update (PyDict.update settings1 settings2)
                      settings3).
Proof.
  intros before items after Hs. do 3 eexists.
  split; [apply flatten_settings_leaves|].
  split; [apply flatten_settings_leaves|].
  split; [apply flatten_settings_leaves|].
  rewrite flatten_settings_leaves. cbn [leaves].
  rewrite walk_items_app. cbn [walk_items]. rewrite Hs.
  change (full_key_of "" "") with "".
  rewrite !store_all_app, !update_store_all. reflexivity.
Qed.

(** X4 at [{"b": 1, "": {"a": 2}, "c": 3}]. *)
Lemma empty_key_transparent_witness :
  exists settings1 settings2 settings3,
    flatten_settings (VDict [("b", VInt 1)]) "" = Returns settings1
    /\ flatten_settings (VDict [("a", VInt 2)]) "" = Returns settings2
    /\ flatten_settings (VDict [("c", VInt 3)]) "" = Returns settings3
    /\ flatten_settings
         (VDict [("b", VInt 1); ("", VDict [("a", VInt 2)]); ("c", VInt 3)])
         ""
       = Returns (PyDict.update (PyDict.update settings1 settings2)
                    settings3).
Proof.
  exact (empty_key_transparent [("b", VInt 1)] [("a", VInt 2)]
           [("c", VInt 3)] eq_refl).
Defined.

(** X5.  Flattening the items of two mappings one after the other is
    flattening each and updating the first result with the second. *)
Theorem flatten_settings_concat :
  forall first second prefix,
    exists settings1 settings2,
      flatten_settings (VDict first) prefix = Returns settings1
      /\ flatten_settings (VDict second) prefix = Returns settings2
      /\ flatten_settings (VDict (first ++ second)%list) prefix
         = Returns (PyDict.update settings1 settings2).
Proof.
  intros first second prefix. do 2 eexists.
  split; [apply flatten_settings_leaves|].
  split; [apply flatten_settings_leaves|].
  rewrite flatten_settings_leaves. cbn [leaves].
  now rewrite walk_items_app, store_all_app, update_store_all.
Qed.

(** ** Trees whose leaves have distinct paths *)

Lemma distinct_NoDup keys : distinct keys = true -> NoDup keys.
Proof.
  induction keys as [|k keys IH]; simpl; intros H; constructor.
  - apply andb_prop in H. destruct H as [H _].
    apply negb_true_iff in H. intros Hin. apply mem_In in Hin. congruence.
  - apply IH. now apply andb_prop in H.
Qed.

Lemma append_cancel_l (p x y : string) : p ++ x = p ++ y -> x = y.
Proof. induction p as [|c p IH]; simpl; [trivial|]. intros [= H]. auto. Qed.

(** Two plain keys, each followed by nothing or by a dot and more, that
    give the same text are the same key. *)
Lemma plain_cancel a : forall b x y,
  free_of "." a = true -> free_of "." b = true ->
  (x = "" \/ exists s, x = "." ++ s) ->
  (y = "" \/ exists t, y = "." ++ t) ->
  a ++ x = b ++ y -> a = b.
Proof.
  induction a as [|c a IH]; intros [|d b] x y Ha Hb Hx Hy E; simpl in *.
  - reflexivity.
  - apply andb_prop in Hb. destruct Hb as [Hd _].
    destruct Hx as [->|[s ->]]; [discriminate|].
    injection E as <- _. discriminate.
  - apply andb_prop in Ha. destruct Ha as [Hc _].
    destruct Hy as [->|[t ->]]; [discriminate|].
    injection E as -> _. discriminate.
  - apply andb_prop in Ha, Hb. destruct Ha as [_ Ha], Hb as [_ Hb].
    injection E as -> E. f_equal. now apply (IH b x y).
Qed.

(** What stands before the key in a full key. *)
Lemma full_key_of_lead prefix key :
  full_key_of prefix key
  = (if String.eqb prefix "" then "" else prefix ++ ".") ++ key.
Proof.
  unfold full_key_of. destruct (String.eqb prefix ""); simpl; [reflexivity|].
  now rewrite append_assoc.
Qed.

Lemma full_key_of_plain prefix key :
  plain_key key = true -> full_key_of prefix key <> "".
Proof.
  unfold plain_key. intros H. apply andb_prop in H. destruct H as [H _].
  apply negb_true_iff, String.eqb_neq in H.
  rewrite full_key_of_lead.
  destruct (String.eqb prefix "") eqn:E; simpl.
  - exact H.
  - apply String.eqb_neq in E. now apply append_nonempty_l, append_nonempty_l.
Qed.

Lemma append_empty_r (a : string) : a ++ "" = a.
Proof. induction a; simpl; [reflexivity | now f_equal]. Qed.

Lemma under_tail lead key path :
  under (lead ++ key) path ->
  exists x, (x = "" \/ exists s, x = "." ++ s) /\ path = lead ++ key ++ x.
Proof.
  intros [->|[s ->]].
  - exists "". split; [now left|]. now rewrite append_empty_r.
  - exists ("." ++ s). split; [right; now exists s|]. apply append_assoc.
Qed.

Lemma under_same_key prefix k1 k2 path :
  plain_key k1 = true -> plain_key k2 = true ->
  under (full_key_of prefix k1) path -> under (full_key_of prefix k2) path ->
  k1 = k2.
Proof.
  unfold plain_key. intros H1 H2 U1 U2.
  apply andb_prop in H1, H2. destruct H1 as [_ H1], H2 as [_ H2].
  rewrite full_key_of_lead in U1, U2.
  apply under_tail in U1, U2.
  destruct U1 as [x [Hx ->]], U2 as [y [Hy E]].
  apply append_cancel_l in E. now apply (plain_cancel k1 k2 x y).
Qed.

(** The paths a key gives rise to belong to the key. *)
Lemma walk_items_under prefix items path :
  forallb (fun kv => plain_key (fst kv)) items = true ->
  In path (map fst (walk_items leaves prefix items)) ->
  exists k,
    In k (PyDict.keys items) /\ plain_key k = true
    /\ under (full_key_of prefix k) path.
Proof.
  induction items as [|[key value] items IH]; intros Hp Hin; [contradiction|].
  cbn [forallb fst] in Hp. apply andb_prop in Hp. destruct Hp as [Hk Hp].
  cbn [walk_items] in Hin. rewrite map_app, in_app_iff in Hin.
  destruct Hin as [Hin|Hin].
  - exists key. split; [now left|]. split; [exact Hk|].
    destruct (is_structural value).
    + apply in_map_iff in Hin. destruct Hin as [[p w] [E Hin]].
      simpl in E. subst p.
      apply leaves_below in Hin; [|now apply full_key_of_plain].
      now right.
    + destruct Hin as [<-|[]]. now left.
  - destruct (IH Hp Hin) as [k [Hk' [Hpk Hu]]].
    exists k. split; [now right | now split].
Qed.

Lemma forallb_plain items :
  forallb (fun kv =>
             plain_key (fst kv)
             && (if is_structural (snd kv) then plain_keys (snd kv)
                 else true)) items = true ->
  forallb (fun kv : string * value => plain_key (fst kv)) items = true.
Proof.
  induction items as [|kv items IH]; simpl; [trivial|]. intros H.
  apply andb_prop in H. destruct H as [H1 H2].
  apply andb_prop in H1. destruct H1 as [-> _]. now apply IH.
Qed.

Lemma walk_items_distinct prefix items :
  Forall (fun kv => forall p,
            well_formed (snd kv) = true -> plain_keys (snd kv) = true ->
            NoDup (map fst (leaves p (snd kv)))) items ->
  well_formed (VDict items) = true -> plain_keys (VDict items) = true ->
  NoDup (map fst (walk_items leaves prefix items)).
Proof.
  induction 1 as [|[key value] items Hv _ IH]; intros Hw Hp.
  - constructor.
  - cbn [well_formed PyDict.keys map fst distinct forallb snd] in Hw.
    apply andb_prop in Hw. destruct Hw as [Hd Hw].
    apply andb_prop in Hd. destruct Hd as [Hout Hd].
    apply andb_prop in Hw. destruct Hw as [Hwv Hw].
    pose proof Hp as Hp'. cbn [plain_keys forallb fst snd] in Hp.
    apply andb_prop in Hp. destruct Hp as [Hpk Hp].
    apply andb_prop in Hpk. destruct Hpk as [Hk Hpv].
    cbn [walk_items]. rewrite map_app. apply NoDup_app.
    + destruct (is_structural value).
      * now apply Hv.
      * repeat constructor. intros [].
    + apply IH.
      * cbn [well_formed]. unfold PyDict.keys. now rewrite Hd, Hw.
      * exact Hp.
    + intros path Hin Hin'.
      apply (walk_items_under prefix items path (forallb_plain _ Hp)) in Hin'.
      destruct Hin' as [k [Hkin [Hpk Hu]]].
      assert (Hu0 : under (full_key_of prefix key) path).
      { destruct (is_structural value).
        - apply in_map_iff in Hin. destruct Hin as [[p w] [E Hin]].
          simpl in E. subst p.
          apply leaves_below in Hin; [|now apply full_key_of_plain].
          now right.
        - destruct Hin as [<-|[]]. now left. }
      assert (key = k) by now apply (under_same_key prefix key k path).
      subst k. apply negb_true_iff in Hout.
      apply mem_In in Hkin. unfold PyDict.keys in Hkin. congruence.
Qed.

(** When no mapping holds a key twice and the keys are plain, no two
    leaves have the same path. *)
Lemma leaves_distinct v : forall p,
  well_formed v = true -> plain_keys v = true ->
  NoDup (map fst (leaves p v)).
Proof.
  induction v as [| | | | | |items IH|] using value_rect_nested;
    intros p Hw Hp; try constructor.
  cbn [leaves]. now apply walk_items_distinct.
Qed.

Lemma last_at_distinct ls : forall path v,
  NoDup (map fst ls) -> In (path, v) ls -> last_at ls path = Some v.
Proof.
  induction ls as [|[k w] ls IH]; intros path v Hnd Hin; [contradiction|].
  simpl in Hnd. inversion Hnd as [|? ? Hout Hnd']; subst.
  cbn [last_at]. destruct Hin as [[= -> ->]|Hin].
  - destruct (last_at ls path) as [v'|] eqn:E.
    + exfalso. apply Hout.
      clear - E. induction ls as [|[k w] ls IH]; [discriminate|].
      simpl in *. destruct (last_at ls path); [right; now apply IH|].
      destruct (String.eqb k path) eqn:Ek; [|discriminate].
      apply String.eqb_eq in Ek. now left.
    + now rewrite String.eqb_refl.
  - now rewrite (IH path v Hnd' Hin).
Qed.

(** X6.  When no mapping of the tree holds a key twice and the keys the
    traversal joins are not empty and hold no dot, no two leaves share a
    path: the flattened mapping holds every leaf once, under its path,
    in traversal order. *)
Theorem plain_tree_keeps_leaves :
  forall items prefix,
    well_formed (VDict items) = true ->
    plain_keys (VDict items) = true ->
    exists settings,
      flatten_settings (VDict items) prefix = Returns settings
      /\ settings
         = map (fun kv => (fst kv, entry_of (fst kv) (snd kv)))
             (leaves prefix (VDict items))
      /\ forall path v,
           In (path, v) (leaves prefix (VDict items)) ->
           PyDict.get settings path = Some (entry_of path v).
Proof.
  intros items prefix Hw Hp.
  pose proof (leaves_distinct (VDict items) prefix Hw Hp) as Hnd.
  exists (store_all [] (leaves prefix (VDict items))).
  split; [apply flatten_settings_leaves|]. split.
  - now apply store_all_distinct.
  - intros path v Hin. rewrite get_store_all.
    now rewrite (last_at_distinct _ _ _ Hnd Hin).
Qed.

(** X6 at [{"editor": {"font_size": 14, "tab_size": 4}, "vim_mode": false}]. *)
Lemma plain_tree_keeps_leaves_witness :
  exists settings,
    flatten_settings
      (VDict [("editor", VDict [("font_size", VInt 14); ("tab_size", VInt 4)]);
              ("vim_mode", VBool false)]) ""
    = Returns settings
    /\ PyDict.keys settings = ["editor.font_size"; "editor.tab_size"; "vim_mode"].
Proof.
  destruct (plain_tree_keeps_leaves
              [("editor", VDict [("font_size", VInt 14); ("tab_size", VInt 4)]);
               ("vim_mode", VBool false)] "" eq_refl eq_refl)
    as [settings [Hr [-> _]]].
  eexists. split; [exact Hr | reflexivity].
Defined.

(** ** The loop over the lines *)

Lemma split_single sep l :
  free_of sep l = true -> PyStr.split sep l = [l].
Proof.
  induction l as [|c l IH]; [reflexivity|]. cbn [free_of PyStr.split].
  intros H. apply andb_prop in H. destruct H as [Hc Hl].
  apply negb_true_iff in Hc. rewrite Hc, (IH Hl). reflexivity.
Qed.

Lemma split_app sep l rest :
  free_of sep l = true ->
  PyStr.split sep (l ++ String sep rest) = l :: PyStr.split sep rest.
Proof.
  induction l as [|c l IH]; intros H.
  - cbn [append PyStr.split]. now rewrite Ascii.eqb_refl.
  - cbn [free_of] in H. apply andb_prop in H. destruct H as [Hc Hl].
    apply negb_true_iff in Hc.
    cbn [append PyStr.split]. now rewrite Hc, (IH Hl).
Qed.

Lemma split_join sep lines :
  lines <> [] -> Forall (fun l => free_of sep l = true) lines ->
  PyStr.split sep (PyStr.join (String sep "") lines) = lines.
Proof.
  induction lines as [|l lines IH]; intros Hne Hfree; [contradiction|].
  inversion Hfree as [|? ? Hl Hfree']; subst.
  destruct lines as [|l2 lines].
  - now apply split_single.
  - rewrite CommentFacts.join_cons. cbn [append].
    rewrite split_app by assumption. f_equal.
    apply IH; [discriminate | assumption].
Qed.

Lemma free_of_substring0 c n : forall s,
  free_of c s = true -> free_of c (String.substring 0 n s) = true.
Proof.
  induction n as [|n IH]; intros [|d s] H; try reflexivity.
  cbn [free_of String.substring] in *.
  apply andb_prop in H. destruct H as [-> H]. now apply IH.
Qed.

Lemma clean_line_free c line :
  free_of c line = true -> free_of c (clean_line line) = true.
Proof.
  intros H. unfold clean_line.
  destruct (PyStr.contains "//" line); [|exact H].
  destruct (_ || _); [exact H|].
  unfold PyStr.slice_to. now apply free_of_substring0.
Qed.

Lemma split_strip_comments content :
  PyStr.split newline (strip_comments content)
  = map clean_line (PyStr.split newline content).
Proof.
  unfold strip_comments, line_feed.
  apply split_join.
  - pose proof (CommentFacts.split_nonempty newline content) as H.
    now destruct (PyStr.split newline content).
  - apply Forall_forall. intros l Hin. apply in_map_iff in Hin.
    destruct Hin as [l0 [<- Hin]]. apply clean_line_free.
    pose proof (CommentFacts.split_free newline content) as H.
    now apply (proj1 (Forall_forall _ _) H).
Qed.

(** X7.  The loop keeps the lines apart: the cleaned text has the lines
    of the text, each cleaned, so that a line keeps its number. *)
Theorem strip_comments_lines :
  forall content,
    PyStr.split newline (strip_comments content)
    = map clean_line (PyStr.split newline content)
    /\ List.length (PyStr.split newline (strip_comments content))
       = List.length (PyStr.split newline content).
Proof.
  intros content. rewrite split_strip_comments. split; [reflexivity|].
  apply length_map.
Qed.

(** *** The first [//] of a line *)

Lemma prefix_app (n a x : string) :
  String.prefix n a = true -> String.prefix n (a ++ x) = true.
Proof.
  intros H. apply prefix_iff in H. destruct H as [b ->].
  apply prefix_iff. exists (b ++ x). apply append_assoc.
Qed.

(** Where [find] sees the needle, and what stands before has none. *)
Lemma find_from_first needle l : forall pos,
  PyStr.contains needle l = true ->
  exists a b,
    l = a ++ needle ++ b
    /\ PyStr.find_from needle l pos = (pos + Z.of_nat (String.length a))%Z
    /\ (needle <> "" -> PyStr.contains needle a = false).
Proof.
  induction l as [|c l IH]; intros pos H; cbn [PyStr.contains PyStr.find_from] in *.
  - rewrite orb_false_r in H. rewrite H.
    apply prefix_iff in H. destruct H as [b E].
    exists "", b. split; [exact E|]. split; [simpl; lia|].
    intros Hne. destruct needle; [contradiction | reflexivity].
  - destruct (String.prefix needle (String c l)) eqn:Ep.
    + apply prefix_iff in Ep. destruct Ep as [b E].
      exists "", b. split; [exact E|]. split; [simpl; lia|].
      intros Hne. destruct needle; [contradiction | reflexivity].
    + simpl in H. destruct (IH (pos + 1)%Z H) as [a [b [-> [Hf Ha]]]].
      exists (String c a), b. split; [reflexivity|]. split.
      * rewrite Hf. cbn [String.length]. lia.
      * intros Hne. cbn [PyStr.contains]. rewrite (Ha Hne), orb_false_r.
        destruct (String.prefix needle (String c a)) eqn:Ep'; [|reflexivity].
        apply (prefix_app _ _ (needle ++ b)) in Ep'.
        cbn [append] in Ep'. congruence.
Qed.

(** What the loop makes of a line that holds [//] and no URL: the text
    before the first [//], which holds no [//]. *)
Lemma clean_line_cut line :
  PyStr.contains "//" line = true ->
  PyStr.contains "http://" line || PyStr.contains "https://" line = false ->
  exists a b,
    line = a ++ "//" ++ b /\ clean_line line = a
    /\ PyStr.contains "//" a = false.
Proof.
  intros Hc Hu. unfold clean_line. rewrite Hc, Hu.
  destruct (find_from_first "//" line 0 Hc) as [a [b [-> [Hf Ha]]]].
  exists a, b. split; [reflexivity|]. split.
  - unfold PyStr.find. rewrite Hf, Z.add_0_l.
    apply CommentFacts.slice_to_prefix.
  - now apply Ha.
Qed.

(** X8.  After the loop, a line holds [//] only if it holds [http://] or
    [https://]: every other line was cut before its first [//]. *)
Theorem strip_comments_residue :
  forall content line,
    In line (PyStr.split newline (strip_comments content)) ->
    PyStr.contains "//" line = true ->
    PyStr.contains "http://" line || PyStr.contains "https://" line = true.
Proof.
  intros content line Hin Hc. rewrite split_strip_comments in Hin.
  apply in_map_iff in Hin. destruct Hin as [l [<- _]].
  unfold clean_line in *.
  destruct (PyStr.contains "//" l) eqn:E.
  - destruct (PyStr.contains "http://" l || PyStr.contains "https://" l)
      eqn:Eu; [exact Eu|].
    destruct (clean_line_cut l E Eu) as [a [b [_ [Ea Ha]]]].
    unfold clean_line in Ea. rewrite E, Eu in Ea. rewrite Ea in Hc. congruence.
  - congruence.
Qed.

(** X8 at the text [a // b], a line feed, [u: http://x // c]. *)
Lemma strip_comments_residue_witness :
  PyStr.contains "http://" "u: http://x // c"
  || PyStr.contains "https://" "u: http://x // c" = true.
Proof.
  apply (strip_comments_residue
           ("a // b" ++ line_feed ++ "u: http://x // c")).
  - right. now left.
  - reflexivity.
Defined.

Lemma clean_line_idempotent line : clean_line (clean_line line) = clean_line line.
Proof.
  destruct (PyStr.contains "//" line) eqn:E.
  - destruct (PyStr.contains "http://" line || PyStr.contains "https://" line)
      eqn:Eu.
    + assert (H : clean_line line = line) by (unfold clean_line; now rewrite E, Eu).
      now rewrite !H.
    + destruct (clean_line_cut line E Eu) as [a [b [_ [-> Ha]]]].
      unfold clean_line. now rewrite Ha.
  - assert (H : clean_line line = line) by (unfold clean_line; now rewrite E).
    now rewrite !H.
Qed.

(** X9.  The loop changes a text it has cleaned no further. *)
Theorem strip_comments_idempotent :
  forall content,
    strip_comments (strip_comments content) = strip_comments content.
Proof.
  intros content. unfold strip_comments at 1.
  rewrite split_strip_comments, map_map.
  unfold strip_comments. f_equal.
  apply map_ext. intros l. apply clean_line_idempotent.
Qed.

(** ** The substitution *)

Lemma erase_sub_trailing s : forall copy,
  group copy s = true ->
  erase "," (sub_trailing copy s) = erase "," s.
Proof.
  induction s as [|c s IH]; intros copy Hg; [reflexivity|].
  cbn [sub_trailing]. destruct copy as [|k].
  - destruct (Ascii.eqb c ",") eqn:Ec.
    + cbn [erase]. rewrite Ec.
      destruct (closer_ahead s) as [n|] eqn:En.
      * apply IH. now apply closer_ahead_group.
      * cbn [erase]. rewrite Ec. now apply IH.
    + cbn [erase]. rewrite Ec. f_equal. now apply IH.
  - cbn [erase].
    rewrite (JsonFacts.group_not_comma _ _ _ Hg). f_equal.
    apply IH. now apply JsonFacts.group_tail in Hg.
Qed.

Lemma length_sub_trailing s : forall copy,
  String.length (sub_trailing copy s) <= String.length s.
Proof.
  induction s as [|c s IH]; intros copy; [reflexivity|].
  cbn [sub_trailing String.length]. destruct copy as [|k].
  - destruct (Ascii.eqb c ",").
    + destruct (closer_ahead s) as [n|].
      * specialize (IH n). lia.
      * cbn [String.length]. specialize (IH 0). lia.
    + cbn [String.length]. specialize (IH 0). lia.
  - cbn [String.length]. specialize (IH k). lia.
Qed.

(** X10.  The substitution takes nothing but commas out of the text:
    what is left when all commas are erased is the same before and
    after, and the text does not grow. *)
Theorem remove_trailing_commas_only_commas :
  forall s,
    erase "," (remove_trailing_commas s) = erase "," s
    /\ String.length (remove_trailing_commas s) <= String.length s.
Proof.
  intros s. unfold remove_trailing_commas. split.
  - now apply erase_sub_trailing.
  - apply length_sub_trailing.
Qed.

(** ** The summary by category *)

Lemma get_or_set {V : Type} (d : dict V) k v k' default :
  get_or (PyDict.set d k v) k' default
  = if String.eqb k k' then v else get_or d k' default.
Proof.
  unfold get_or. rewrite PyDictFacts.get_set.
  now destruct (String.eqb k k').
Qed.

(** One more setting of a category: its count goes up by one and the
    other counts stay. *)
Lemma count_step (categories : dict nat) cat cat' :
  PyDict.get (PyDict.set categories cat (get_or categories cat 0 + 1)) cat'
  = if String.eqb cat cat' then Some (get_or categories cat 0 + 1)
    else PyDict.get categories cat'.
Proof. apply PyDictFacts.get_set. Qed.

Lemma count_fold entries : forall (categories : dict nat) cat,
  PyDict.get
    (fold_left
       (fun categories setting =>
          PyDict.set categories (category setting)
            (get_or categories (category setting) 0 + 1))
       entries categories) cat
  = match List.length
            (filter (fun e => String.eqb (category e) cat) entries),
          PyDict.get categories cat with
    | O, before => before
    | S n, before =>
        Some (match before with Some m => m | None => 0 end + S n)
    end.
Proof.
  induction entries as [|e entries IH]; intros categories cat.
  - simpl. now destruct (PyDict.get categories cat).
  - cbn [fold_left filter]. rewrite IH, count_step.
    rewrite String.eqb_sym.
    destruct (String.eqb cat (category e)) eqn:E.
    + apply String.eqb_eq in E. subst cat. cbn [List.length].
      unfold get_or.
      destruct (List.length _); destruct (PyDict.get categories (category e));
        f_equal; lia.
    + reflexivity.
Qed.

Lemma filter_values cat (flattened : dict entry) :
  List.length
    (filter (fun e => String.eqb (category e) cat) (map snd flattened))
  = settings_in cat flattened.
Proof.
  unfold settings_in.
  induction flattened as [|[k e] flattened IH]; [reflexivity|].
  cbn [map filter snd]. destruct (String.eqb (category e) cat); simpl; auto.
Qed.

Lemma sum_set_any (d : dict nat) k v :
  list_sum (map snd (PyDict.set d k v)) + get_or d k 0
  = list_sum (map snd d) + v.
Proof.
  unfold get_or.
  induction d as [|[k0 n0] d IH]; cbn [PyDict.set PyDict.get].
  - simpl. lia.
  - destruct (String.eqb k0 k) eqn:E.
    + simpl. lia.
    + cbn [map snd]. change (list_sum (?x :: ?l)) with (x + list_sum l). lia.
Qed.

Lemma sum_set (d : dict nat) k :
  list_sum (map snd (PyDict.set d k (get_or d k 0 + 1)))
  = list_sum (map snd d) + 1.
Proof.
  pose proof (sum_set_any d k (get_or d k 0 + 1)). lia.
Qed.

Lemma sum_fold entries : forall categories : dict nat,
  list_sum
    (map snd
       (fold_left
          (fun categories setting =>
             PyDict.set categories (category setting)
               (get_or categories (category setting) 0 + 1))
          entries categories))
  = list_sum (map snd categories) + List.length entries.
Proof.
  induction entries as [|e entries IH]; intros categories.
  - simpl. lia.
  - cbn [fold_left List.length]. rewrite IH, sum_set. lia.
Qed.

Lemma NoDup_keys_fold entries : forall categories : dict nat,
  NoDup (PyDict.keys categories) ->
  NoDup
    (PyDict.keys
       (fold_left
          (fun categories setting =>
             PyDict.set categories (category setting)
               (get_or categories (category setting) 0 + 1))
          entries categories)).
Proof.
  induction entries as [|e entries IH]; intros categories H; [exact H|].
  cbn [fold_left]. apply IH. now apply PyDictFacts.NoDup_keys_set.
Qed.

Lemma count_categories_distinct flattened :
  NoDup (PyDict.keys (count_categories flattened)).
Proof. apply NoDup_keys_fold. constructor. Qed.

Lemma count_categories_get flattened cat :
  PyDict.get (count_categories flattened) cat
  = match settings_in cat flattened with
    | O => None
    | S n => Some (S n)
    end.
Proof.
  unfold count_categories. rewrite count_fold, filter_values.
  now destruct (settings_in cat flattened).
Qed.

(** X11.  The summary counts right: a category has an item exactly when
    a setting falls into it, the item holds the number of its settings,
    no category has two items, and the counts add up to the number of
    settings. *)
Theorem count_categories_counts :
  forall flattened,
    (forall cat,
        PyDict.get (count_categories flattened) cat
        = match settings_in cat flattened with
          | O => None
          | S n => Some (S n)
          end)
    /\ NoDup (PyDict.keys (count_categories flattened))
    /\ list_sum (map snd (count_categories flattened))
       = List.length flattened.
Proof.
  intros flattened. split; [|split].
  - intros cat. apply count_categories_get.
  - apply count_categories_distinct.
  - unfold count_categories. rewrite sum_fold, length_map. reflexivity.
Qed.

(** *** The order of the summary *)

Lemma item_leb_total x y : item_leb x y = false -> item_leb y x = true.
Proof.
  unfold item_leb. rewrite (String.compare_antisym (fst y) (fst x)).
  destruct (String.compare (fst x) (fst y)); simpl; try discriminate.
  - intros H. apply Nat.leb_gt in H. apply Nat.leb_le. lia.
  - reflexivity.
Qed.

Lemma insert_item_perm x l : Permutation (insert_item x l) (x :: l).
Proof.
  induction l as [|y l IH]; simpl; [reflexivity|].
  destruct (item_leb x y); [reflexivity|].
  rewrite IH. apply perm_swap.
Qed.

Lemma sorted_perm items : Permutation (sorted items) items.
Proof.
  induction items as [|x items IH]; simpl; [reflexivity|].
  rewrite insert_item_perm. now constructor.
Qed.

Lemma insert_item_hd a x l :
  item_leb a x = true ->
  HdRel (fun a b => item_leb a b = true) a l ->
  HdRel (fun a b => item_leb a b = true) a (insert_item x l).
Proof.
  intros Hax Hl. destruct l as [|y l]; simpl.
  - now constructor.
  - destruct (item_leb x y); constructor; [exact Hax|].
    now inversion Hl.
Qed.

Lemma insert_item_sorted x l :
  Sorted (fun a b => item_leb a b = true) l ->
  Sorted (fun a b => item_leb a b = true) (insert_item x l).
Proof.
  induction 1 as [|y l Hs IH Hh]; simpl.
  - repeat constructor.
  - destruct (item_leb x y) eqn:E.
    + constructor; [now constructor | now constructor].
    + constructor; [exact IH|].
      apply insert_item_hd; [now apply item_leb_total | exact Hh].
Qed.

Lemma sorted_sorted items :
  Sorted (fun a b => item_leb a b = true) (sorted items).
Proof.
  induction items as [|x items IH]; simpl; [constructor|].
  now apply insert_item_sorted.
Qed.

(** Between items with different keys, the order is the order of the
    keys. *)
Lemma sorted_by_key l :
  Sorted (fun a b => item_leb a b = true) l ->
  NoDup (map fst l) ->
  Sorted (fun a b => String.ltb (fst a) (fst b) = true) l.
Proof.
  induction 1 as [|x l Hs IH Hh]; intros Hnd; [constructor|].
  simpl in Hnd. inversion Hnd as [|? ? Hout Hnd']; subst.
  constructor; [now apply IH|].
  destruct Hh as [|y l Hxy]; constructor.
  unfold item_leb in Hxy. unfold String.ltb.
  destruct (String.compare (fst x) (fst y)) eqn:E; try discriminate.
  - apply String.compare_eq_iff in E. exfalso. apply Hout.
    rewrite E. now left.
  - reflexivity.
Qed.

(** X12.  The summary is in the order of the category names: what is
    printed are the items of the count, each once, every name smaller
    than the next. *)
Theorem summary_order :
  forall flattened,
    Permutation (sorted (count_categories flattened))
      (count_categories flattened)
    /\ Sorted (fun a b => String.ltb (fst a) (fst b) = true)
         (sorted (count_categories flattened)).
Proof.
  intros flattened. split; [apply sorted_perm|].
  apply sorted_by_key; [apply sorted_sorted|].
  apply (Permutation_NoDup (l := PyDict.keys (count_categories flattened))).
  - unfold PyDict.keys. apply Permutation_map. symmetry. apply sorted_perm.
  - apply count_categories_distinct.
Qed.

(** *** The lines of the summary *)

Lemma In_set {V : Type} (d : dict V) k v x :
  In x (PyDict.set d k v) -> x = (k, v) \/ In x d.
Proof.
  induction d as [|[k0 v0] d IH]; simpl.
  - intros [<-|[]]. now left.
  - destruct (String.eqb k0 k) eqn:E.
    + apply String.eqb_eq in E. subst k0.
      intros [<-|H]; [now left | right; now right].
    + intros [<-|H]; [right; now left|].
      destruct (IH H) as [->|H']; [now left | right; now right].
Qed.

Lemma In_store_all ls : forall settings k e,
  In (k, e) (store_all settings ls) ->
  In (k, e) settings \/ exists v, e = entry_of k v.
Proof.
  induction ls as [|[k0 v0] ls IH]; intros settings k e Hin.
  - now left.
  - rewrite store_all_cons in Hin. destruct (IH _ _ _ Hin) as [H|H].
    + apply In_set in H. destruct H as [[= -> ->]|H]; [|now left].
      right. now exists v0.
    + now right.
Qed.

Lemma get_In {V : Type} (d : dict V) k v :
  NoDup (PyDict.keys d) -> In (k, v) d -> PyDict.get d k = Some v.
Proof.
  induction d as [|[k0 v0] d IH]; intros Hnd Hin; [contradiction|].
  simpl in Hnd. inversion Hnd as [|? ? Hout Hnd']; subst. simpl.
  destruct Hin as [[= -> ->]|Hin].
  - now rewrite String.eqb_refl.
  - destruct (String.eqb k0 k) eqn:E.
    + apply String.eqb_eq in E. subst k0. exfalso. apply Hout.
      apply in_map_iff. now exists (k, v).
    + now apply IH.
Qed.

Lemma settings_in_positive cat (flattened : dict entry) :
  settings_in cat flattened <> 0 ->
  exists k e, In (k, e) flattened /\ category e = cat.
Proof.
  unfold settings_in. intros H.
  destruct (filter _ flattened) as [|[k e] l] eqn:E; [contradiction|].
  assert (Hin : In (k, e) (filter (fun kv => String.eqb (category (snd kv)) cat)
                             flattened)) by (rewrite E; now left).
  apply filter_In in Hin. destruct Hin as [Hin Hc].
  apply String.eqb_eq in Hc. now exists k, e.
Qed.

Lemma categorize_label full_key : In (categorize full_key) category_labels.
Proof. rewrite categorize_first_match. apply first_match_label. Qed.

Lemma summary_bound :
  forall obj prefix flattened,
    flatten_settings obj prefix = Returns flattened ->
    List.length (sorted (count_categories flattened)) <= 11
    /\ forall cat n,
         In (cat, n) (sorted (count_categories flattened)) ->
         In cat category_labels
         /\ n = settings_in cat flattened
         /\ 1 <= n.
Proof.
  intros obj prefix flattened Hr.
  assert (Hitem : forall cat n,
             In (cat, n) (sorted (count_categories flattened)) ->
             In cat category_labels
             /\ n = settings_in cat flattened /\ 1 <= n).
  { intros cat n Hin.
    apply (Permutation_in _ (sorted_perm _)) in Hin.
    apply get_In in Hin; [|apply count_categories_distinct].
    rewrite count_categories_get in Hin.
    destruct (settings_in cat flattened) as [|m] eqn:Em; [discriminate|].
    injection Hin as <-. split; [|split; [reflexivity | lia]].
    destruct (settings_in_positive cat flattened) as [k [e [Hke <-]]];
      [lia|].
    destruct obj; try discriminate.
    rewrite flatten_settings_leaves in Hr. injection Hr as <-.
    apply In_store_all in Hke. destruct Hke as [[]|[v ->]].
    apply categorize_label. }
  split; [|exact Hitem].
  rewrite (Permutation_length (sorted_perm _)).
  rewrite <- (length_map fst).
  change 11 with (List.length category_labels).
  apply NoDup_incl_length; [apply count_categories_distinct|].
  intros cat Hin. apply in_map_iff in Hin. destruct Hin as [[c n] [<- Hin]].
  apply (Hitem c n). now apply (Permutation_in _ (Permutation_sym (sorted_perm _))).
Qed.

(** X13.  For a flattened mapping, the summary has at most eleven lines;
    each names a category label and gives the number of settings of
    that category, which is at least one. *)
Theorem summary_lines :
  forall obj prefix flattened,
    flatten_settings obj prefix = Returns flattened ->
    List.length (sorted (count_categories flattened)) <= 11
    /\ forall cat n,
         In (cat, n) (sorted (count_categories flattened)) ->
         In cat category_labels
         /\ n = settings_in cat flattened
         /\ 1 <= n.
Proof. exact summary_bound. Qed.

(** X13 at [{"vim_mode": false, "font_size": 14, "font_family": "Zed"}]. *)
Lemma summary_lines_witness :
  sorted
    (count_categories
       [("vim_mode", entry_of "vim_mode" (VBool false));
        ("font_size", entry_of "font_size" (VInt 14));
        ("font_family", entry_of "font_family" (VStr "Zed"))])
  = [("font", 2); ("keybindings", 1)]
  /\ 2 <= 11.
Proof.
  split; [reflexivity|].
  exact (proj1 (summary_lines
                  (VDict [("vim_mode", VBool false); ("font_size", VInt 14);
                          ("font_family", VStr "Zed")]) "" _ eq_refl)).
Defined.

(** ** The run *)

Lemma perform_all_done perform events :
  exists rest,
    events = (fst (perform_all perform events) ++ rest)%list.
Proof.
  induction events as [|ev events [rest IH]]; [now exists []|].
  cbn [perform_all]. destruct (perform ev).
  - destruct (perform_all perform events) as [done result]. exists rest.
    cbn [fst app] in *. now f_equal.
  - now exists (ev :: events).
Qed.

Lemma perform_all_returns perform events u :
  snd (perform_all perform events) = Returns u ->
  fst (perform_all perform events) = events.
Proof.
  induction events as [|ev events IH]; [reflexivity|].
  cbn [perform_all]. destruct (perform ev); [|discriminate].
  destruct (perform_all perform events) as [done result].
  cbn [fst snd] in *. intros H. now rewrite IH.
Qed.

Lemma perform_all_complete perform events :
  (forall ev, In ev events -> perform ev = Returns tt) ->
  perform_all perform events = (events, Returns tt).
Proof.
  induction events as [|ev events IH]; intros H; [reflexivity|].
  cbn [perform_all]. rewrite (H ev) by now left.
  rewrite IH; [reflexivity|]. intros ev' Hin. apply H. now right.
Qed.

(** When opening raises, nothing after it is carried out. *)
Lemma perform_all_stops perform events ev e :
  perform ev = Raises e ->
  ~ In ev (fst (perform_all perform events)).
Proof.
  intros He. induction events as [|ev' events IH]; [intros []|].
  cbn [perform_all]. destruct (perform ev') eqn:E; [|intros []].
  destruct (perform_all perform events) as [done result].
  cbn [fst] in *. intros [->|Hin]; [congruence | contradiction].
Qed.

Lemma on_file_summary items : filter on_file (map category_line items) = [].
Proof. induction items as [|x items IH]; [reflexivity | exact IH]. Qed.

Lemma on_file_closing flattened :
  filter on_file (closing flattened)
  = [Opened output_path;
     Dumped output_path
       (mkReference "Zed" "~/.config/zed/settings.json" "json" flattened)].
Proof.
  unfold closing. cbn [app filter on_file]. now rewrite on_file_summary.
Qed.

Lemma In_filter_prefix {A : Type} (f : A -> bool) (done rest : list A) x :
  In x done -> f x = true -> In x (filter f (done ++ rest)%list).
Proof.
  intros Hin Hf. apply filter_In. split; [|exact Hf].
  apply in_or_app. now left.
Qed.

(** X14.  A run touches the output file only after [flatten_settings]
    has returned, and dumps only into the file it has opened: every effect
    on the file in the trace is the opening of the output path or the dump
    of the document with the fixed fields and the flattened mapping, and a
    dump comes after the opening.  When flattening raises, the run raises
    and the trace holds no effect on the file; when opening raises,
    nothing is dumped.  A run that returns has carried out all its
    effects: the two opening lines, the opening of the file, one dump, the
    line with the number of entries, and the summary.  When the
    environment carries out every effect and flattening returns, the run
    returns. *)
Theorem generate_reference_yaml_writes :
  forall perform raising depth default_settings,
    (forall ev,
        In ev (fst (generate_reference_yaml perform raising depth
                      default_settings)) ->
        on_file ev = true ->
        exists flattened,
          flatten_settings_run raising depth default_settings ""
          = Returns flattened
          /\ In (Opened output_path)
               (fst (generate_reference_yaml perform raising depth
                       default_settings))
          /\ (ev = Opened output_path
              \/ ev = Dumped output_path
                        (mkReference "Zed" "~/.config/zed/settings.json"
                           "json" flattened)))
    /\ (forall e,
           flatten_settings_run raising depth default_settings "" = Raises e ->
           exists e',
             snd (generate_reference_yaml perform raising depth
                    default_settings) = Raises e'
             /\ filter on_file
                  (fst (generate_reference_yaml perform raising depth
                          default_settings)) = [])
    /\ (forall e path document,
           perform (Opened output_path) = Raises e ->
           ~ In (Dumped path document)
               (fst (generate_reference_yaml perform raising depth
                       default_settings)))
    /\ (forall u,
           snd (generate_reference_yaml perform raising depth
                  default_settings) = Returns u ->
           exists flattened,
             flatten_settings_run raising depth default_settings ""
             = Returns flattened
             /\ fst (generate_reference_yaml perform raising depth
                       default_settings)
                = (opening ++ closing flattened)%list
             /\ filter on_file
                  (fst (generate_reference_yaml perform raising depth
                          default_settings))
                = [Opened output_path;
                   Dumped output_path
                     (mkReference "Zed" "~/.config/zed/settings.json"
                        "json" flattened)])
    /\ (forall flattened,
           (forall ev, perform ev = Returns tt) ->
           flatten_settings_run raising depth default_settings ""
           = Returns flattened ->
           generate_reference_yaml perform raising depth default_settings
           = ((opening ++ closing flattened)%list, Returns tt)).
Proof.
  intros perform raising depth default_settings.
  unfold generate_reference_yaml.
  destruct (perform_all_done perform opening) as [rest0 Hd0].
  pose proof (perform_all_returns perform opening) as Hr0.
  pose proof (perform_all_complete perform opening) as Hc0.
  destruct (perform_all perform opening) as [started result0].
  cbn [fst snd] in Hd0, Hr0.
  assert (Hstarted : forall ev, In ev started -> on_file ev = false).
  { intros ev Hin.
    assert (Hin' : In ev opening) by (rewrite Hd0; apply in_or_app; now left).
    destruct Hin' as [<-|[<-|[]]]; reflexivity. }
  assert (Hnone : filter on_file started = []).
  { destruct (filter on_file started) as [|ev l] eqn:E; [reflexivity|].
    assert (Hin : In ev (filter on_file started)) by (rewrite E; now left).
    apply filter_In in Hin. destruct Hin as [Hin Hf].
    apply Hstarted in Hin. congruence. }
  destruct (flatten_settings_run raising depth default_settings "")
    as [flattened|e0] eqn:Hf.
  - destruct (perform_all_done perform (closing flattened)) as [rest1 Hd1].
    pose proof (perform_all_returns perform (closing flattened)) as Hr1.
    pose proof (perform_all_stops perform (closing flattened)) as Hs1.
    pose proof (perform_all_complete perform (closing flattened)) as Hc1.
    destruct result0 as [[]|e0].
    + destruct (perform_all perform (closing flattened)) as [done result1].
      cbn [fst snd] in *.
      assert (Hdone : forall ev, In ev done -> on_file ev = true ->
                In (Opened output_path) done
                /\ (ev = Opened output_path
                    \/ ev = Dumped output_path
                              (mkReference "Zed" "~/.config/zed/settings.json"
                                 "json" flattened))).
      { intros ev Hin Hev.
        assert (Hin' : In ev (filter on_file (closing flattened))).
        { rewrite Hd1. now apply In_filter_prefix. }
        rewrite on_file_closing in Hin'.
        split.
        - destruct done as [|ev0 done]; [contradiction|].
          unfold closing in Hd1. cbn [app] in Hd1.
          injection Hd1 as <- _. now left.
        - destruct Hin' as [<-|[<-|[]]]; [now left | now right]. }
      split; [|split; [|split; [|split]]].
      * intros ev Hin Hev. exists flattened. split; [reflexivity|].
        apply in_app_or in Hin. destruct Hin as [Hin|Hin].
        { apply Hstarted in Hin. congruence. }
        destruct (Hdone ev Hin Hev) as [Ho Hcase].
        split; [apply in_or_app; now right | exact Hcase].
      * discriminate.
      * intros e path document He Hin.
        apply in_app_or in Hin. destruct Hin as [Hin|Hin].
        { apply Hstarted in Hin. discriminate. }
        destruct (Hdone _ Hin eq_refl) as [Ho _].
        exact (Hs1 _ _ He Ho).
      * intros u Hu. exists flattened. split; [reflexivity|].
        rewrite (Hr0 tt eq_refl), (Hr1 u Hu).
        split; [reflexivity|].
        rewrite filter_app, on_file_closing. reflexivity.
      * intros flattened' Hall [= <-].
        injection (Hc0 (fun ev _ => Hall ev)) as ->.
        injection (Hc1 (fun ev _ => Hall ev)) as -> ->. reflexivity.
    + cbn [fst snd]. split; [|split; [|split; [|split]]].
      * intros ev Hin Hev. apply Hstarted in Hin. congruence.
      * discriminate.
      * intros e path document He Hin. apply Hstarted in Hin. discriminate.
      * discriminate.
      * intros flattened' Hall _.
        discriminate (Hc0 (fun ev _ => Hall ev)).
  - split; [|split; [|split; [|split]]].
    + intros ev Hin Hev. destruct result0; cbn [fst] in Hin;
        apply Hstarted in Hin; congruence.
    + intros e _. destruct result0 as [u|e1]; cbn [fst snd].
      * exists e0. split; [reflexivity | exact Hnone].
      * exists e1. split; [reflexivity | exact Hnone].
    + intros e path document He Hin. destruct result0; cbn [fst] in Hin;
        apply Hstarted in Hin; discriminate.
    + intros u Hu. destruct result0; discriminate.
    + intros flattened Hall H. discriminate.
Qed.

(** X14 in an environment that carries out every effect, at
    [{"vim_mode": false}]. *)
Lemma generate_reference_yaml_writes_witness :
  generate_reference_yaml (fun _ => Returns tt) (fun _ => false) 1
    (VDict [("vim_mode", VBool false)])
  = ((opening
      ++ closing [("vim_mode", entry_of "vim_mode" (VBool false))])%list,
     Returns tt).
Proof.
  apply (generate_reference_yaml_writes (fun _ => Returns tt)
           (fun _ => false) 1 (VDict [("vim_mode", VBool false)])).
  - reflexivity.
  - reflexivity.
Defined.

(** ** The [settings] dictionaries made by a call *)

Lemma flatten_loop_ref_length items :
  Forall (fun kv =>
            is_structural (snd kv) = false
            \/ forall prefix h,
                 exists a h',
                   flatten_settings_ref (snd kv) prefix h = Returns (a, h')
                   /\ List.length h'
                      = List.length h + mappings_entered (snd kv)) items ->
  forall prefix a h,
    exists h',
      flatten_loop_ref flatten_settings_ref prefix items a h = Returns h'
      /\ List.length h'
         = List.length h
           + list_sum
               (map (fun kv =>
                       if is_structural (snd kv)
                       then mappings_entered (snd kv) else 0) items).
Proof.
  induction 1 as [|[key value] items Hv _ IH]; intros prefix a h.
  - exists h. split; [reflexivity | simpl; lia].
  - cbn [flatten_loop_ref map snd]. cbn [snd] in Hv.
    change (list_sum (?x :: ?l)) with (x + list_sum l).
    destruct (is_structural value) eqn:Es.
    + destruct Hv as [|Hv]; [discriminate|].
      destruct (Hv (full_key_of prefix key) h) as [nested [h1 [-> Hlen]]].
      match goal with
      | |- context [flatten_loop_ref _ prefix items a ?h2] =>
          destruct (IH prefix a h2) as [h' [-> Hlen']];
          rewrite length_assign in Hlen'
      end.
      exists h'. split; [reflexivity | lia].
    + match goal with
      | |- context [flatten_loop_ref _ prefix items a ?h2] =>
          destruct (IH prefix a h2) as [h' [-> Hlen']];
          rewrite length_assign in Hlen'
      end.
      exists h'. split; [reflexivity | lia].
Qed.

Lemma flatten_settings_ref_length v :
  is_structural v = false
  \/ forall prefix h,
       exists a h',
         flatten_settings_ref v prefix h = Returns (a, h')
         /\ List.length h' = List.length h + mappings_entered v.
Proof.
  induction v as [| | | | | |items IH|] using value_rect_nested;
    try (left; reflexivity).
  right. intros prefix h. cbn [flatten_settings_ref mappings_entered].
  unfold alloc.
  destruct (flatten_loop_ref_length items IH prefix (List.length h)
              (h ++ [[]])%list) as [h' [-> Hlen]].
  exists (List.length h), h'. split; [reflexivity|].
  rewrite length_app in Hlen. simpl in Hlen. lia.
Qed.

(** X15.  A call on a mapping runs [settings = {}] once for each mapping
    the traversal enters: it makes one [settings] dictionary for the root
    and one for each structural mapping below it, the call of line 64
    being made once per structural mapping, and it changes none of the
    [settings] dictionaries that were there. *)
Theorem flatten_settings_allocates :
  forall items prefix h,
    exists h',
      flatten_settings_ref (VDict items) prefix h
      = Returns (List.length h, h')
      /\ List.length h'
         = List.length h + mappings_entered (VDict items)
      /\ forall a, a < List.length h -> deref h' a = deref h a.
Proof.
  intros items prefix h.
  destruct (flatten_settings_ref_pure items prefix h)
    as [h' [Hr [_ [_ Hold]]]].
  exists h'. split; [exact Hr|]. split; [|exact Hold].
  assert (Hall : Forall (fun kv : string * value =>
                           is_structural (snd kv) = false
                           \/ forall prefix h,
                                exists a h',
                                  flatten_settings_ref (snd kv) prefix h
                                  = Returns (a, h')
                                  /\ List.length h'
                                     = List.length h
                                       + mappings_entered (snd kv)) items).
  { apply Forall_forall. intros kv _. apply flatten_settings_ref_length. }
  revert Hr. cbn [flatten_settings_ref mappings_entered]. unfold alloc.
  destruct (flatten_loop_ref_length items Hall prefix (List.length h)
              (h ++ [[]])%list) as [h2 [-> Hlen]].
  intros [= <-]. rewrite length_app in Hlen. simpl in Hlen. lia.
Qed.

(** ** Texts the preprocessing leaves alone *)

Lemma sub_trailing_shorter s : forall copy,
  group copy s = true -> has_trailing_comma s = true ->
  String.length (sub_trailing copy s) < String.length s.
Proof.
  induction s as [|c s IH]; intros copy Hg Hm; [discriminate|].
  cbn [has_trailing_comma] in Hm. cbn [sub_trailing String.length].
  destruct copy as [|k].
  - destruct (Ascii.eqb c ",").
    + destruct (closer_ahead s) as [n|] eqn:En.
      * pose proof (length_sub_trailing s n). lia.
      * cbn [String.length]. simpl in Hm. specialize (IH 0 eq_refl Hm). lia.
    + cbn [String.length]. simpl in Hm. specialize (IH 0 eq_refl Hm). lia.
  - rewrite (JsonFacts.group_not_comma _ _ _ Hg) in Hm. simpl in Hm.
    cbn [String.length].
    specialize (IH k (JsonFacts.group_tail _ _ _ Hg) Hm). lia.
Qed.

Lemma sub_trailing_same s :
  has_trailing_comma s = false -> sub_trailing 0 s = s.
Proof.
  induction s as [|c s IH]; [reflexivity|].
  cbn [has_trailing_comma sub_trailing]. intros Hm.
  apply orb_false_elim in Hm. destruct Hm as [Hc Hm].
  destruct (Ascii.eqb c ",").
  - destruct (closer_ahead s); [discriminate|]. now rewrite IH.
  - now rewrite IH.
Qed.

(** X16.  The substitution leaves a text as it is exactly when no comma
    of the text stands before white space and a closing bracket, and
    makes every other text shorter. *)
Theorem remove_trailing_commas_fixed :
  forall s,
    (remove_trailing_commas s = s <-> has_trailing_comma s = false)
    /\ (has_trailing_comma s = true ->
        String.length (remove_trailing_commas s) < String.length s).
Proof.
  intros s. unfold remove_trailing_commas. split; [split|].
  - intros E. destruct (has_trailing_comma s) eqn:Hm; [|reflexivity].
    pose proof (sub_trailing_shorter s 0 eq_refl Hm) as Hlt.
    rewrite E in Hlt. lia.
  - apply sub_trailing_same.
  - now apply sub_trailing_shorter.
Qed.

Lemma join_In sep l : forall ls,
  In l ls -> exists x y, PyStr.join sep ls = x ++ l ++ y.
Proof.
  induction ls as [|l0 ls IH]; intros Hin; [contradiction|].
  destruct ls as [|l1 ls].
  - destruct Hin as [->|[]]. exists "", "". simpl. now rewrite append_empty_r.
  - rewrite CommentFacts.join_cons. destruct Hin as [->|Hin].
    + exists "", (sep ++ PyStr.join sep (l1 :: ls)). reflexivity.
    + destruct (IH Hin) as [x [y ->]]. exists (l0 ++ sep ++ x), y.
      now rewrite !append_assoc.
Qed.

Lemma contains_inside needle x l y :
  PyStr.contains needle l = true -> PyStr.contains needle (x ++ l ++ y) = true.
Proof.
  intros H. apply contains_iff in H. destruct H as [before [after ->]].
  apply contains_iff. exists (x ++ before), (after ++ y).
  now rewrite !append_assoc.
Qed.

Lemma strip_comments_same content :
  PyStr.contains "//" content = false -> strip_comments content = content.
Proof.
  intros Hc. unfold strip_comments, line_feed.
  rewrite <- (CommentFacts.join_split newline content) at 2. f_equal.
  rewrite <- (map_id (PyStr.split newline content)) at 2.
  apply map_ext_in. intros l Hin. unfold clean_line.
  destruct (PyStr.contains "//" l) eqn:E; [|reflexivity].
  destruct (join_In (String newline "") l _ Hin) as [x [y Ej]].
  rewrite CommentFacts.join_split in Ej.
  apply (contains_inside _ x _ y) in E. rewrite <- Ej in E. congruence.
Qed.

(** X17.  A text that holds no [//] and no comma before a closing
    bracket goes through the preprocessing unchanged. *)
Theorem preprocess_same :
  forall content,
    PyStr.contains "//" content = false ->
    has_trailing_comma content = false ->
    preprocess content = content.
Proof.
  intros content Hc Hm. unfold preprocess.
  rewrite strip_comments_same by assumption.
  now apply sub_trailing_same.
Qed.

(** X17 at [{"a": [1, 2]}]. *)
Lemma preprocess_same_witness :
  preprocess ("{" ++ quoted "a" ++ ": [1, 2]}")
  = "{" ++ quoted "a" ++ ": [1, 2]}".
Proof.
  apply preprocess_same; reflexivity.
Defined.
